(** * Duplicate-file detection: [find_duplicates.py]

    A shallow embedding of [src/exercises/find_duplicates.py]: the MD5 digest
    accumulator the script obtains from [hashlib], the chunked read loop of
    [get_file_hash], the grouping loop and the final dictionary comprehension
    of [find_duplicates_basic], and the report printed by the [__main__]
    block.  The file system is explicit state threaded through every
    operation; exceptions are the left summand of the result. *)

From Stdlib Require Import ZArith NArith Arith List String Ascii Bool Lia.
From Stdlib Require Import Permutation.
From Stdlib.Strings Require Import Byte.
From Equations Require Import Equations.
Import ListNotations.

(** * The MD5 digest accumulator ([hashlib.md5]) *)

Module MD5.

Local Open Scope Z_scope.

(** 32-bit words are integers with the wrap-around written out. *)
Definition w32 (x : Z) : Z := Z.land x 0xFFFFFFFF.

Definition not32 (x : Z) : Z := Z.lxor x 0xFFFFFFFF.

Definition rotl (x c : Z) : Z :=
  w32 (Z.lor (Z.shiftl x c) (Z.shiftr x (32 - c))).

Definition shifts : list Z :=
  [7; 12; 17; 22; 7; 12; 17; 22; 7; 12; 17; 22; 7; 12; 17; 22;
   5; 9; 14; 20; 5; 9; 14; 20; 5; 9; 14; 20; 5; 9; 14; 20;
   4; 11; 16; 23; 4; 11; 16; 23; 4; 11; 16; 23; 4; 11; 16; 23;
   6; 10; 15; 21; 6; 10; 15; 21; 6; 10; 15; 21; 6; 10; 15; 21].

(** [floor (2^32 * abs (sin (i + 1)))] for [i] from 0 to 63. *)
Definition sines : list Z :=
  [0xd76aa478; 0xe8c7b756; 0x242070db; 0xc1bdceee;
   0xf57c0faf; 0x4787c62a; 0xa8304613; 0xfd469501;
   0x698098d8; 0x8b44f7af; 0xffff5bb1; 0x895cd7be;
   0x6b901122; 0xfd987193; 0xa679438e; 0x49b40821;
   0xf61e2562; 0xc040b340; 0x265e5a51; 0xe9b6c7aa;
   0xd62f105d; 0x02441453; 0xd8a1e681; 0xe7d3fbc8;
   0x21e1cde6; 0xc33707d6; 0xf4d50d87; 0x455a14ed;
   0xa9e3e905; 0xfcefa3f8; 0x676f02d9; 0x8d2a4c8a;
   0xfffa3942; 0x8771f681; 0x6d9d6122; 0xfde5380c;
   0xa4beea44; 0x4bdecfa9; 0xf6bb4b60; 0xbebfbc70;
   0x289b7ec6; 0xeaa127fa; 0xd4ef3085; 0x04881d05;
   0xd9d4d039; 0xe6db99e5; 0x1fa27cf8; 0xc4ac5665;
   0xf4292244; 0x432aff97; 0xab9423a7; 0xfc93a039;
   0x655b59c3; 0x8f0ccc92; 0xffeff47d; 0x85845dd1;
   0x6fa87e4f; 0xfe2ce6e0; 0xa3014314; 0x4e0811a1;
   0xf7537e82; 0xbd3af235; 0x2ad7d2bb; 0xeb86d391].

(** The four chaining registers. *)
Record regs : Type := Regs { rA : Z; rB : Z; rC : Z; rD : Z }.

Definition iv : regs :=
  Regs 0x67452301 0xefcdab89 0x98badcfe 0x10325476.

Definition byte_val (b : byte) : Z := Z.of_N (Byte.to_N b).

Definition byte_of_Z (z : Z) : byte :=
  match Byte.of_N (Z.to_N (z mod 256)) with
  | Some b => b
  | None => x00
  end.

(** Little-endian value of a byte string. *)
Fixpoint le_val (bs : list byte) : Z :=
  match bs with
  | [] => 0
  | b :: bs' => byte_val b + 256 * le_val bs'
  end.

(** The [n] low bytes of [z], least significant first. *)
Fixpoint le_bytes (n : nat) (z : Z) : list byte :=
  match n with
  | O => []
  | S n' => byte_of_Z z :: le_bytes n' (z / 256)
  end.

(** The sixteen message words of a 64-byte block. *)
Fixpoint words (n : nat) (block : list byte) : list Z :=
  match n with
  | O => []
  | S n' => le_val (firstn 4 block) :: words n' (skipn 4 block)
  end.

(** Round function and message index of step [i]. *)
Definition mix (i : nat) (b c d : Z) : Z * nat :=
  if (i <? 16)%nat then
    (Z.lor (Z.land b c) (Z.land (not32 b) d), i)
  else if (i <? 32)%nat then
    (Z.lor (Z.land d b) (Z.land (not32 d) c), ((5 * i + 1) mod 16)%nat)
  else if (i <? 48)%nat then
    (Z.lxor (Z.lxor b c) d, ((3 * i + 5) mod 16)%nat)
  else
    (Z.lxor c (Z.lor b (not32 d)), ((7 * i) mod 16)%nat).

Definition step (m : list Z) (r : regs) (i : nat) : regs :=
  let '(f, g) := mix i (rB r) (rC r) (rD r) in
  let f' := w32 (f + rA r + nth i sines 0 + nth g m 0) in
  Regs (rD r) (w32 (rB r + rotl f' (nth i shifts 0))) (rB r) (rC r).

(** One application of the compression function to a 64-byte block. *)
Definition compress (r : regs) (block : list byte) : regs :=
  let r' := fold_left (step (words 16 block)) (seq 0 64) r in
  Regs (w32 (rA r + rA r')) (w32 (rB r + rB r'))
       (w32 (rC r + rC r')) (w32 (rD r + rD r')).

(** The accumulator object: chaining registers, the bytes of the current
    incomplete block, and the number of bytes fed so far. *)
Record hasher : Type :=
  Hasher { state : regs; pending : list byte; count : Z }.

(** [hashlib.md5()] *)
Definition md5 : hasher := Hasher iv [] 0.

Definition absorb (h : hasher) (b : byte) : hasher :=
  let buf := pending h ++ [b] in
  if (List.length buf =? 64)%nat
  then Hasher (compress (state h) buf) [] (count h + 1)
  else Hasher (state h) buf (count h + 1).

(** [hasher.update(chunk)] *)
Definition update (h : hasher) (chunk : list byte) : hasher :=
  fold_left absorb chunk h.

(** The padding of a message of [n] bytes: a one bit, zeros up to 56 bytes
    modulo 64, and the bit length on 64 bits, least significant byte first. *)
Definition padding (n : Z) : list byte :=
  x80 :: repeat x00 (Z.to_nat ((55 - n) mod 64))
      ++ le_bytes 8 ((8 * n) mod 2 ^ 64).

(** [hasher.digest()]: the accumulator itself is left untouched. *)
Definition digest (h : hasher) : list byte :=
  let r := state (update h (padding (count h))) in
  le_bytes 4 (rA r) ++ le_bytes 4 (rB r) ++ le_bytes 4 (rC r)
    ++ le_bytes 4 (rD r).

Definition hex_digit (n : Z) : ascii :=
  nth (Z.to_nat n)
      ["0"; "1"; "2"; "3"; "4"; "5"; "6"; "7";
       "8"; "9"; "a"; "b"; "c"; "d"; "e"; "f"]%char "0"%char.

Fixpoint hex (bs : list byte) : string :=
  match bs with
  | [] => EmptyString
  | b :: bs' =>
      String (hex_digit (byte_val b / 16))
        (String (hex_digit (byte_val b mod 16)) (hex bs'))
  end.

(** [hasher.hexdigest()] *)
Definition hexdigest (h : hasher) : string := hex (digest h).

(** RFC 1321 read literally: pad the whole message, cut it into 64-byte
    blocks, run the compression function over the blocks. *)
Equations? blocks (data : list byte) : list (list byte)
  by wf (List.length data) lt :=
  blocks [] := [];
  blocks (b :: data') := firstn 64 (b :: data') :: blocks (skipn 64 (b :: data')).
Proof. pose proof (length_skipn 63 data'). simpl in *. lia. Qed.

Definition chain (message : list byte) : regs :=
  let padded := message ++ padding (Z.of_nat (List.length message)) in
  fold_left compress (blocks padded) iv.

Definition md5_rfc (message : list byte) : string :=
  let r := chain message in
  hex (le_bytes 4 (rA r) ++ le_bytes 4 (rB r) ++ le_bytes 4 (rC r)
         ++ le_bytes 4 (rD r)).

(** The registers as one number below [2 ^ 128]. *)
Definition regs_bounded (r : regs) : Prop :=
  0 <= rA r < 2 ^ 32 /\ 0 <= rB r < 2 ^ 32
  /\ 0 <= rC r < 2 ^ 32 /\ 0 <= rD r < 2 ^ 32.

Definition code (r : regs) : Z :=
  rA r + 2 ^ 32 * rB r + 2 ^ 64 * rC r + 2 ^ 96 * rD r.

End MD5.


(** * The file system and the effects of the script *)

(** A [pathlib.Path], by its components ([Path.parts]): [Path(".")] is the
    empty list and [Path("x/1.txt")] is ["x"; "1.txt"]. *)
Definition path : Type := list string.

(** [str(path)] *)
Definition str (p : path) : string :=
  match p with
  | [] => "."
  | _ :: _ => String.concat "/" p
  end.

Fixpoint path_eqb (p q : path) : bool :=
  match p, q with
  | [], [] => true
  | x :: p', y :: q' => String.eqb x y && path_eqb p' q'
  | _, _ => false
  end.

(** [p] lies strictly below [directory]. *)
Fixpoint is_under (directory p : path) : bool :=
  match directory, p with
  | [], _ :: _ => true
  | d :: directory', x :: p' => String.eqb d x && is_under directory' p'
  | _, _ => false
  end.

(** The exceptions the standard library raises on file access. *)
Inductive exn : Type :=
| PermissionError
| FileNotFoundError
| IsADirectoryError
| OSError.

Inductive result (A : Type) : Type :=
| Ok (a : A)
| Raise (e : exn).
Arguments Ok {A} a.
Arguments Raise {A} e.

(** A regular file: its bytes, and the I/O call on it that fails, if any.
    [Some (0, e)]: [open] raises [e] (permission denied, or the file is gone
    by the time it is opened); [Some (S k, e)]: the read number [S k] on the
    open file raises [e]. *)
Record file : Type := File { content : list byte; fault : option (nat * exn) }.

Inductive node : Type :=
| Regular (f : file)
| Directory
| Special.

Inductive mode : Type := rb | wb.

(** The state of the world the script runs in: the entries of the file
    system in the order a recursive listing yields them, the log of the
    [open] calls made so far, and what was written to standard output. *)
Record world : Type :=
  World { entries : list (path * node);
          opened : list (path * mode);
          stdout : string }.

Fixpoint find_node (p : path) (es : list (path * node)) : option node :=
  match es with
  | [] => None
  | (q, n) :: es' => if path_eqb p q then Some n else find_node p es'
  end.

Fixpoint set_node (p : path) (n : node) (es : list (path * node))
  : list (path * node) :=
  match es with
  | [] => [(p, n)]
  | (q, m) :: es' =>
      if path_eqb p q then (q, n) :: es' else (q, m) :: set_node p n es'
  end.

(** Computations that read and change the world and may raise. *)
Definition io (A : Type) : Type := world -> result A * world.

Definition ret {A} (a : A) : io A := fun w => (Ok a, w).

Definition raise {A} (e : exn) : io A := fun w => (Raise e, w).

Definition bind {A B} (c : io A) (k : A -> io B) : io B :=
  fun w =>
    match c w with
    | (Ok a, w') => k a w'
    | (Raise e, w') => (Raise e, w')
    end.

Definition lift {A} (r : result A) : io A := fun w => (r, w).

Notation "x <- c ;; k" := (bind c (fun x => k))
  (at level 61, c at next level, right associativity).
Notation "c ;;; k" := (bind c (fun _ => k))
  (at level 61, right associativity).

(** An open file object: the bytes after the current position, the number
    of reads made, and the fault of the underlying file. *)
Record handle : Type :=
  Handle { rest : list byte; reads : nat; pending_fault : option (nat * exn) }.

(** [open(p, m)].  Mode ["rb"] leaves the file system as it is; mode ["wb"]
    truncates the file, or creates it. *)
Definition open_ (p : path) (m : mode) : io handle :=
  fun w =>
    let log := opened w ++ [(p, m)] in
    match m with
    | rb =>
        let w' := World (entries w) log (stdout w) in
        match find_node p (entries w) with
        | Some (Regular f) =>
            match fault f with
            | Some (O, e) => (Raise e, w')
            | _ => (Ok (Handle (content f) 0 (fault f)), w')
            end
        | Some Directory => (Raise IsADirectoryError, w')
        | Some Special => (Raise OSError, w')
        | None => (Raise FileNotFoundError, w')
        end
    | wb =>
        match find_node p (entries w) with
        | Some Directory => (Raise IsADirectoryError, World (entries w) log (stdout w))
        | _ =>
            (Ok (Handle [] 0 None),
             World (set_node p (Regular (File [] None)) (entries w)) log (stdout w))
        end
    end.

(** [f.read(size)]: at most [size] bytes from the current position, none at
    the end of the file; the position advances. *)
Definition read (f : handle) (size : nat) : result (list byte * handle) :=
  let n := S (reads f) in
  let go := Ok (firstn size (rest f),
                Handle (skipn size (rest f)) n (pending_fault f)) in
  match pending_fault f with
  | Some (k, e) => if (k =? n)%nat then Raise e else go
  | None => go
  end.

(** [filepath.is_file()] *)
Definition is_file (p : path) : io bool :=
  fun w =>
    (Ok match find_node p (entries w) with
        | Some (Regular _) => true
        | _ => false
        end, w).

(** [Path(directory).rglob("*")]: every entry below [directory], in listing
    order.  The generator is lazy in Python; nothing in the loop that
    consumes it changes the entries, so the listing is taken at once. *)
Definition rglob (directory : path) : io (list path) :=
  fun w => (Ok (filter (is_under directory) (map fst (entries w))), w).

(** [print(s)] *)
Definition print (s : string) : io unit :=
  fun w =>
    (Ok tt, World (entries w) (opened w) (stdout w ++ s ++ String "010" "")).

(** * [get_file_hash] *)

Definition chunk_size : nat := 8192.

Definition inspect {A : Type} (a : A) : {b : A | a = b} := exist _ a eq_refl.

(** [while chunk := f.read(8192): hasher.update(chunk)] *)
Equations? read_loop (f : handle) (hasher : MD5.hasher) : result MD5.hasher
  by wf (List.length (rest f)) lt :=
  read_loop f hasher with inspect (read f chunk_size) := {
    | exist _ (Raise e) _ := Raise e
    | exist _ (Ok ([], _)) _ := Ok hasher
    | exist _ (Ok (b :: chunk, f')) H :=
        read_loop f' (MD5.update hasher (b :: chunk)) }.
Proof.
  revert H. generalize chunk_size as size. unfold read. intros size H.
  assert (E : firstn size (rest f) = b :: chunk
              /\ rest f' = skipn size (rest f)).
  { destruct (pending_fault f) as [[k e]|];
      [destruct (k =? S (reads f))%nat; [discriminate|]|];
      injection H as H1 H2; subst f'; auto. }
  destruct E as [E1 E2]. rewrite E2, length_skipn.
  destruct size as [|size]; [discriminate|].
  destruct (rest f) as [|x r]; [discriminate|].
  cbn [List.length]. lia.
Qed.

Definition get_file_hash (filepath : path) : io string :=
  let hasher := MD5.md5 in
  f <- open_ filepath rb ;;
  hasher <- lift (read_loop f hasher) ;;
  ret (MD5.hexdigest hasher).

(** * [find_duplicates_basic] *)

(** A [dict] from fingerprints to lists of paths, in insertion order. *)
Definition dict : Type := list (string * list path).

Fixpoint dict_get (d : dict) (k : string) : option (list path) :=
  match d with
  | [] => None
  | (k', v) :: d' => if String.eqb k k' then Some v else dict_get d' k
  end.

(** [d[k].append(v)] on a [defaultdict(list)]: a missing key is first
    inserted, at the end, with an empty list. *)
Fixpoint dict_append (d : dict) (k : string) (v : path) : dict :=
  match d with
  | [] => [(k, [v])]
  | (k', vs) :: d' =>
      if String.eqb k k' then (k', vs ++ [v]) :: d'
      else (k', vs) :: dict_append d' k v
  end.

(** The body of the [for] loop, over the paths the listing yields. *)
Fixpoint for_each (paths : list path) (hash_dict : dict) : io dict :=
  match paths with
  | [] => ret hash_dict
  | filepath :: paths' =>
      regular <- is_file filepath ;;
      if (regular : bool) then
        file_hash <- get_file_hash filepath ;;
        for_each paths' (dict_append hash_dict file_hash filepath)
      else for_each paths' hash_dict
  end.

(** The first half of [find_duplicates_basic]: the index [hash_dict]. *)
Definition build_index (directory : path) : io dict :=
  paths <- rglob directory ;;
  for_each paths [].

(** [{h: files for h, files in hash_dict.items() if len(files) > 1}] *)
Definition more_than_one (item : string * list path) : bool :=
  (1 <? List.length (snd item))%nat.

Definition find_duplicates_basic (directory : path) : io dict :=
  hash_dict <- build_index directory ;;
  let duplicates := filter more_than_one hash_dict in
  ret duplicates.

(** * The [__main__] block *)

Fixpoint print_files (files : list path) : io unit :=
  match files with
  | [] => ret tt
  | f :: files' => print (" - " ++ str f) ;;; print_files files'
  end.

Fixpoint print_groups (items : dict) : io unit :=
  match items with
  | [] => ret tt
  | (file_hash, files) :: items' =>
      print "Hash:" ;;;
      print_files files ;;;
      print "/n" ;;;
      print_groups items'
  end.

Definition main : io unit :=
  duplicates <- find_duplicates_basic [] ;;
  print_groups duplicates.


(** * Views of a run used in the statements *)

(** The reference the chunked loop is compared with: load the whole file,
    then hash it, [hashlib.md5(data).hexdigest()]. *)
Definition hash_whole_file (data : list byte) : string :=
  MD5.hexdigest (MD5.update MD5.md5 data).

(** The world after the files [ps] have been opened in mode ["rb"], one
    after the other. *)
Definition logged (w : world) (ps : list path) : world :=
  World (entries w) (opened w ++ map (fun p => (p, rb)) ps) (stdout w).

Definition regular (es : list (path * node)) (p : path) : bool :=
  match find_node p es with
  | Some (Regular _) => true
  | _ => false
  end.

(** What [get_file_hash] returns or raises on [p]. *)
Definition hash_of (es : list (path * node)) (p : path) : result string :=
  fst (get_file_hash p (World es [] "")).

Definition fingerprint (es : list (path * node)) (p : path) : string :=
  match hash_of es p with
  | Ok h => h
  | Raise _ => ""
  end.

(** The paths the listing yields, and the regular files among them, in
    discovery order. *)
Definition listing (directory : path) (w : world) : list path :=
  filter (is_under directory) (map fst (entries w)).

Definition discovered (directory : path) (w : world) : list path :=
  filter (regular (entries w)) (listing directory w).

(** The loop of [find_duplicates_basic] without the world. *)
Fixpoint scan (es : list (path * node)) (paths : list path) (d : dict)
  : result dict :=
  match paths with
  | [] => Ok d
  | p :: paths' =>
      if regular es p then
        match hash_of es p with
        | Ok h => scan es paths' (dict_append d h p)
        | Raise e => Raise e
        end
      else scan es paths' d
  end.

(** The files the loop opens: every regular file up to the first one whose
    hashing raises. *)
Fixpoint attempted (es : list (path * node)) (paths : list path) : list path :=
  match paths with
  | [] => []
  | p :: paths' =>
      if regular es p then
        p :: match hash_of es p with
             | Ok _ => attempted es paths'
             | Raise _ => []
             end
      else attempted es paths'
  end.

(** The paths filed under fingerprint [h] among [ps], in order. *)
Definition members (es : list (path * node)) (h : string) (ps : list path)
  : list path :=
  filter (fun p => String.eqb h (fingerprint es p)) ps.

(** The lines of a report in which every group is a header line, a line
    for each member, and a separator line. *)
Definition report_lines (header separator : string) (items : dict)
  : list string :=
  flat_map (fun item =>
              header :: map (fun f => (" - " ++ str f)%string) (snd item)
                     ++ [separator])
           items.

(** A digit, or a letter from a to f in lower case. *)
Definition is_lower_hex (c : ascii) : bool :=
  let n := nat_of_ascii c in
  ((48 <=? n) && (n <=? 57) || (97 <=? n) && (n <=? 102))%nat.

(** The digest of the empty byte string. *)
Definition md5_of_nothing : string := "d41d8cd98f00b204e9800998ecf8427e".

(** Standard output as the list of its lines. *)
Fixpoint lines_text (ls : list string) : string :=
  match ls with
  | [] => ""
  | l :: ls' => l ++ String "010" (lines_text ls')
  end.

(** The step of the loop on a regular file, and the files that hash. *)
Definition add (es : list (path * node)) (d : dict) (p : path) : dict :=
  dict_append d (fingerprint es p) p.

Definition hashes (es : list (path * node)) (p : path) : Prop :=
  exists h, hash_of es p = Ok h.

(** The fingerprints of a dictionary, and the paths of all its buckets. *)
Definition keys (d : dict) : list string := map fst d.

Definition all_paths (d : dict) : list path := List.concat (map snd d).

(** The distinct elements of a list, each at the place where it is
    first seen. *)
Fixpoint first_seen (hs : list string) : list string :=
  match hs with
  | [] => []
  | h :: hs' => h :: filter (fun x => negb (String.eqb x h)) (first_seen hs')
  end.

(** [h] is not among the fingerprints [ks]. *)
Definition fresh (ks : list string) (h : string) : bool :=
  negb (existsb (String.eqb h) ks).

(** The world after the lines [ls] are printed. *)
Definition printed (w : world) (ls : list string) : world :=
  World (entries w) (opened w) (stdout w ++ lines_text ls).

(** * Sample worlds *)

Definition bytes_of_string (s : string) : list byte :=
  map byte_of_ascii (list_ascii_of_string s).

Definition text_file (s : string) : node :=
  Regular (File (bytes_of_string s) None).

(** [x/1.txt] and [y/2.txt] hold "hello", [z/3.txt] holds "world". *)
Definition hello_world : world :=
  World [ (["x"], Directory);
          (["x"; "1.txt"], text_file "hello");
          (["y"], Directory);
          (["y"; "2.txt"], text_file "hello");
          (["z"], Directory);
          (["z"; "3.txt"], text_file "world") ]%string [] "".

(** Two empty files and one that is not. *)
Definition empty_files : world :=
  World [ (["a.txt"], text_file "");
          (["b.txt"], text_file "");
          (["c.txt"], text_file "hello") ]%string [] "".

(** A file of 8193 bytes: one full chunk, one chunk of a single byte, and
    the empty read that ends the loop. *)
Definition two_chunks : world :=
  World [ (["big"]%string, Regular (File (repeat x00 8193) None)) ] [] "".

(** [b.txt] cannot be opened; [a.txt] and [c.txt] hold the same text. *)
Definition locked_file : world :=
  World [ (["a.txt"], text_file "hello");
          (["b.txt"],
           Regular (File (bytes_of_string "hello")
                         (Some (0%nat, PermissionError))));
          (["c.txt"], text_file "hello") ]%string [] "".

(** The second read of [big] fails; [late] would fail at a fifth read,
    which its two reads never reach. *)
Definition failing_reads : world :=
  World [ (["big"], Regular (File (repeat x00 8193) (Some (2%nat, OSError))));
          (["late"],
           Regular (File (bytes_of_string "hello") (Some (5%nat, OSError)))) ]%string
        [] "".


(** Two files, with different contents. *)
Definition no_duplicates : world :=
  World [ (["x"; "1.txt"], text_file "hello");
          (["z"; "3.txt"], text_file "world") ]%string [] "".

Ltac distinct_paths :=
  repeat (constructor; [simpl; intuition discriminate|]); constructor.

(** * Properties of the read loop *)

Lemma read_inv (f : handle) (size : nat) chunk f' :
  read f size = Ok (chunk, f') ->
  chunk = firstn size (rest f)
  /\ rest f' = skipn size (rest f)
  /\ pending_fault f' = pending_fault f.
Proof.
  unfold read. intros H.
  destruct (pending_fault f) as [[k e]|] eqn:F;
    [destruct (k =? S (reads f))%nat; [discriminate|]|];
    injection H as H1 H2; subst f'; auto.
Qed.

Lemma read_readable (f : handle) (size : nat) :
  pending_fault f = None ->
  read f size
  = Ok (firstn size (rest f), Handle (skipn size (rest f)) (S (reads f)) None).
Proof. unfold read. intros ->. reflexivity. Qed.

Lemma chunk_size_pos : chunk_size <> 0%nat.
Proof. discriminate. Qed.

Lemma firstn_nil_inv {A} (n : nat) (l : list A) :
  n <> 0%nat -> firstn n l = [] -> l = [].
Proof. destruct n, l; simpl; congruence. Qed.

Lemma update_app (h : MD5.hasher) (a b : list byte) :
  MD5.update (MD5.update h a) b = MD5.update h (a ++ b).
Proof. unfold MD5.update. symmetry. apply fold_left_app. Qed.

Lemma read_loop_sound (f : handle) (hasher h' : MD5.hasher) :
  read_loop f hasher = Ok h' -> h' = MD5.update hasher (rest f).
Proof.
  funelim (read_loop f hasher); intros R.
  - match goal with E : read _ _ = Ok ([], _) |- _ =>
      destruct (read_inv _ _ _ _ E) as (E0 & _ & _) end.
    symmetry in E0. apply firstn_nil_inv in E0; [|exact chunk_size_pos].
    rewrite E0. injection R as <-. reflexivity.
  - match goal with E : read _ _ = Ok (_ :: _, _) |- _ =>
      destruct (read_inv _ _ _ _ E) as (E1 & E2 & _) end.
    match goal with IH : forall h, _ = Ok h -> _ |- _ =>
      rewrite (IH _ R) end.
    rewrite E1, E2, update_app, firstn_skipn. reflexivity.
  - discriminate.
Qed.

Lemma read_loop_readable (f : handle) (hasher : MD5.hasher) :
  pending_fault f = None ->
  read_loop f hasher = Ok (MD5.update hasher (rest f)).
Proof.
  funelim (read_loop f hasher); intros F.
  - match goal with E : read _ _ = Ok ([], _) |- _ =>
      destruct (read_inv _ _ _ _ E) as (E0 & _ & _) end.
    symmetry in E0. apply firstn_nil_inv in E0; [|exact chunk_size_pos].
    rewrite E0. reflexivity.
  - match goal with E : read _ _ = Ok (_ :: _, _) |- _ =>
      destruct (read_inv _ _ _ _ E) as (E1 & E2 & E3) end.
    match goal with IH : _ -> read_loop _ _ = _ |- _ =>
      rewrite IH by congruence end.
    rewrite E1, E2, update_app, firstn_skipn. reflexivity.
  - match goal with E : read _ _ = Raise _ |- _ =>
      pose proof E as E'; rewrite read_readable in E' by assumption;
      discriminate end.
Qed.


(** * The effects of [get_file_hash] and of the loop *)

Lemma get_file_hash_spec (p : path) (w : world) :
  get_file_hash p w = (hash_of (entries w) p, logged w [p]).
Proof.
  unfold hash_of, get_file_hash, bind, open_, lift, ret, logged.
  cbn [entries opened stdout map].
  destruct (find_node p (entries w)) as [[f| |]|]; try reflexivity.
  destruct (fault f) as [[[|k] e]|]; try reflexivity;
    destruct (read_loop _ _); reflexivity.
Qed.

Lemma logged_nil (w : world) : logged w [] = w.
Proof. destruct w. unfold logged. simpl. rewrite app_nil_r. reflexivity. Qed.

Lemma logged_app (w : world) (a b : list path) :
  logged (logged w a) b = logged w (a ++ b).
Proof. unfold logged. simpl. rewrite map_app, app_assoc. reflexivity. Qed.

Lemma for_each_spec (paths : list path) :
  forall (d : dict) (w : world),
    for_each paths d w
    = (scan (entries w) paths d, logged w (attempted (entries w) paths)).
Proof.
  induction paths as [|p paths IH]; intros d w; simpl.
  - unfold ret. rewrite logged_nil. reflexivity.
  - unfold bind at 1. unfold is_file at 1. fold (regular (entries w) p).
    destruct (regular (entries w) p); [|apply IH].
    unfold bind. rewrite get_file_hash_spec.
    destruct (hash_of (entries w) p) as [h|e]; [|reflexivity].
    rewrite IH. simpl entries. rewrite logged_app. reflexivity.
Qed.

Lemma build_index_spec (directory : path) (w : world) :
  build_index directory w
  = (scan (entries w) (listing directory w) [],
     logged w (attempted (entries w) (listing directory w))).
Proof.
  unfold build_index, bind, rglob. fold (listing directory w).
  apply for_each_spec.
Qed.

Lemma find_duplicates_basic_spec (directory : path) (w : world) :
  find_duplicates_basic directory w
  = (match scan (entries w) (listing directory w) [] with
     | Ok hash_dict => Ok (filter more_than_one hash_dict)
     | Raise e => Raise e
     end,
     logged w (attempted (entries w) (listing directory w))).
Proof.
  unfold find_duplicates_basic, bind. rewrite build_index_spec.
  destruct (scan _ _ _); reflexivity.
Qed.


(** * What [get_file_hash] returns *)

Lemma hash_of_sound es (p : path) (f : file) (h : string) :
  find_node p es = Some (Regular f) ->
  hash_of es p = Ok h ->
  h = hash_whole_file (content f).
Proof.
  unfold hash_of, get_file_hash, bind, open_, lift, ret. cbn [entries fst].
  intros ->.
  assert (G : forall r : result MD5.hasher,
             r = read_loop (Handle (content f) 0 (fault f)) MD5.md5 ->
             (let (x, _) :=
                match r with
                | Ok a => (Ok (MD5.hexdigest a), World es [(p, rb)] "")
                | Raise e => (Raise e, World es [(p, rb)] "")
                end in x) = Ok h ->
             h = hash_whole_file (content f)).
  { intros [a|e] R; [|discriminate]. symmetry in R.
    apply read_loop_sound in R. simpl in R. subst a.
    intros E. injection E as <-. reflexivity. }
  destruct (fault f) as [[[|k] e]|]; [discriminate| |];
    intros E; eapply G; try reflexivity; exact E.
Qed.

Lemma hash_of_readable es (p : path) (f : file) :
  find_node p es = Some (Regular f) ->
  fault f = None ->
  hash_of es p = Ok (hash_whole_file (content f)).
Proof.
  unfold hash_of, get_file_hash, bind, open_, lift, ret. cbn [entries fst].
  intros -> F. rewrite F, read_loop_readable by reflexivity. reflexivity.
Qed.

Lemma hash_of_open_fault es (p : path) (f : file) (e : exn) :
  find_node p es = Some (Regular f) ->
  fault f = Some (0%nat, e) ->
  hash_of es p = Raise e.
Proof.
  unfold hash_of, get_file_hash, bind, open_, lift, ret. cbn [entries fst].
  intros -> F. rewrite F. reflexivity.
Qed.

Lemma regular_inv es (p : path) :
  regular es p = true -> exists f, find_node p es = Some (Regular f).
Proof.
  unfold regular. destruct (find_node p es) as [[f| |]|]; try discriminate.
  eauto.
Qed.

Lemma regular_intro es (p : path) (f : file) :
  find_node p es = Some (Regular f) -> regular es p = true.
Proof. unfold regular. intros ->. reflexivity. Qed.

Lemma path_eqb_eq (p q : path) : path_eqb p q = true <-> p = q.
Proof.
  revert q. induction p as [|x p IH]; intros [|y q]; simpl.
  - split; reflexivity.
  - split; discriminate.
  - split; discriminate.
  - rewrite andb_true_iff, String.eqb_eq, IH.
    split; [intros [-> ->]; reflexivity|intros E; injection E; auto].
Qed.

Lemma find_node_in es (p : path) (n : node) :
  find_node p es = Some n -> In p (map fst es).
Proof.
  induction es as [|[q m] es IH]; simpl; [discriminate|].
  destruct (path_eqb p q) eqn:E; [|auto].
  apply path_eqb_eq in E. auto.
Qed.

Lemma in_discovered (directory : path) (w : world) (p : path) (f : file) :
  is_under directory p = true ->
  find_node p (entries w) = Some (Regular f) ->
  In p (discovered directory w).
Proof.
  intros U F. unfold discovered, listing.
  rewrite !filter_In. eauto using find_node_in, regular_intro.
Qed.

Lemma discovered_inv (directory : path) (w : world) (p : path) :
  In p (discovered directory w) ->
  is_under directory p = true
  /\ exists f, find_node p (entries w) = Some (Regular f).
Proof.
  unfold discovered, listing. rewrite !filter_In.
  intros [[_ U] R]. auto using regular_inv.
Qed.

(** * The loop without the world *)

Lemma scan_regular es (paths : list path) :
  forall d, scan es paths d = scan es (filter (regular es) paths) d.
Proof.
  induction paths as [|p paths IH]; intros d; simpl; [reflexivity|].
  destruct (regular es p) eqn:R; simpl; rewrite ?R; [|apply IH].
  destruct (hash_of es p); [apply IH|reflexivity].
Qed.

Lemma attempted_regular es (paths : list path) :
  attempted es paths = attempted es (filter (regular es) paths).
Proof.
  induction paths as [|p paths IH]; simpl; [reflexivity|].
  destruct (regular es p) eqn:R; simpl; rewrite ?R; [|apply IH].
  destruct (hash_of es p); [rewrite IH|]; reflexivity.
Qed.

Lemma scan_ok es (paths : list path) :
  Forall (fun p => regular es p = true) paths ->
  Forall (hashes es) paths ->
  forall d, scan es paths d = Ok (fold_left (add es) paths d).
Proof.
  induction 1 as [|p paths R _ IH]; intros H d; simpl; [reflexivity|].
  inversion H as [|? ? [h Hh] H']; subst. rewrite R.
  unfold add at 2, fingerprint. rewrite Hh. apply IH. exact H'.
Qed.

Lemma attempted_ok es (paths : list path) :
  Forall (fun p => regular es p = true) paths ->
  Forall (hashes es) paths ->
  attempted es paths = paths.
Proof.
  induction 1 as [|p paths R _ IH]; intros H; simpl; [reflexivity|].
  inversion H as [|? ? [h Hh] H']; subst. rewrite R, Hh, IH; auto.
Qed.

Lemma scan_ok_inv es (paths : list path) :
  forall d d', scan es paths d = Ok d' ->
    Forall (hashes es) (filter (regular es) paths).
Proof.
  induction paths as [|p paths IH]; intros d d'; simpl; [constructor|].
  destruct (regular es p) eqn:R; [|apply IH].
  destruct (hash_of es p) as [h|e] eqn:Hh; [|discriminate].
  intros S. constructor; [exists h; exact Hh|eapply IH; exact S].
Qed.

Lemma scan_raise es (before after : list path) (p : path) (e : exn) :
  Forall (fun p => regular es p = true) before ->
  Forall (hashes es) before ->
  regular es p = true ->
  hash_of es p = Raise e ->
  forall d, scan es (before ++ p :: after) d = Raise e
            /\ attempted es (before ++ p :: after) = before ++ [p].
Proof.
  intros B H R E.
  induction B as [|q before Rq _ IH]; intros d; simpl.
  - rewrite R, E. auto.
  - inversion H as [|? ? [h Hh] H']; subst. rewrite Rq, Hh.
    destruct (IH H' (dict_append d h q)) as [-> ->]. auto.
Qed.


(** * The dictionary *)

Section Dict.

Implicit Types (d : dict) (k h : string) (v p : path).

Lemma dict_get_append d k v k' :
  dict_get (dict_append d k v) k'
  = if String.eqb k' k
    then Some (match dict_get d k with
               | Some vs => vs ++ [v]
               | None => [v]
               end)
    else dict_get d k'.
Proof.
  induction d as [|[k0 vs] d IH]; simpl.
  - destruct (String.eqb_spec k' k); reflexivity.
  - destruct (String.eqb_spec k k0) as [->|N]; simpl.
    + destruct (String.eqb_spec k' k0); reflexivity.
    + rewrite IH. destruct (String.eqb_spec k' k0) as [->|N'];
        [|reflexivity].
      destruct (String.eqb_spec k0 k); congruence.
Qed.

Lemma keys_append d k v :
  keys (dict_append d k v) = if in_dec string_dec k (keys d)
                             then keys d else keys d ++ [k].
Proof.
  induction d as [|[k0 vs] d IH]; simpl; [reflexivity|].
  destruct (String.eqb_spec k k0) as [->|N]; simpl.
  - destruct (string_dec k0 k0); [|congruence].
    destruct (in_dec string_dec k0 (keys d)); reflexivity.
  - unfold keys in *. rewrite IH.
    destruct (string_dec k0 k); [congruence|].
    destruct (in_dec string_dec k (map fst d)); reflexivity.
Qed.

Lemma keys_append_nodup d k v :
  NoDup (keys d) -> NoDup (keys (dict_append d k v)).
Proof.
  intros N. rewrite keys_append.
  destruct (in_dec string_dec k (keys d)); [exact N|].
  apply NoDup_app; [exact N|repeat constructor; simpl; tauto|].
  intros x Hx [<-|[]]. contradiction.
Qed.

Lemma all_paths_append d k v :
  Permutation (all_paths (dict_append d k v)) (v :: all_paths d).
Proof.
  unfold all_paths. induction d as [|[k0 vs] d IH]; simpl.
  - reflexivity.
  - destruct (String.eqb k k0); simpl.
    + rewrite <- app_assoc. simpl.
      symmetry. apply Permutation_middle.
    + rewrite IH. symmetry. apply Permutation_middle.
Qed.

Lemma dict_get_none d k : ~ In k (keys d) -> dict_get d k = None.
Proof.
  unfold keys. induction d as [|[k0 vs] d IH]; simpl; [reflexivity|].
  intros N. destruct (String.eqb_spec k k0) as [->|_]; [tauto|].
  apply IH. tauto.
Qed.

Lemma dict_get_in d k vs : dict_get d k = Some vs -> In (k, vs) d.
Proof.
  induction d as [|[k0 vs0] d IH]; simpl; [discriminate|].
  destruct (String.eqb_spec k k0) as [->|N]; [|auto].
  intros E. injection E as ->. auto.
Qed.

Lemma in_dict_get d k vs :
  NoDup (keys d) -> In (k, vs) d -> dict_get d k = Some vs.
Proof.
  unfold keys. induction d as [|[k0 vs0] d IH]; simpl; [tauto|].
  intros N [E|I].
  - injection E as -> ->. rewrite String.eqb_refl. reflexivity.
  - inversion N as [|? ? N1 N2]; subst.
    destruct (String.eqb_spec k k0) as [->|_]; [|auto].
    exfalso. apply N1. change k0 with (fst (k0, vs)). apply in_map, I.
Qed.

Lemma keys_filter_in (f : string * list path -> bool) d k :
  In k (keys (filter f d)) -> In k (keys d).
Proof.
  unfold keys. rewrite !in_map_iff. intros [x [E I]].
  apply filter_In in I. exists x. tauto.
Qed.

Lemma dict_get_filter d k :
  NoDup (keys d) ->
  dict_get (filter more_than_one d) k
  = match dict_get d k with
    | Some vs => if more_than_one (k, vs) then Some vs else None
    | None => None
    end.
Proof.
  induction d as [|[k0 vs0] d IH]; simpl; [reflexivity|].
  unfold keys at 1. simpl map.
  intros N. inversion N as [|? ? N1 N2]; subst.
  destruct (String.eqb_spec k k0) as [->|Nk].
  - destruct (more_than_one (k0, vs0)); simpl.
    + rewrite String.eqb_refl. reflexivity.
    + apply dict_get_none. intros I. apply N1.
      eapply keys_filter_in, I.
  - destruct (more_than_one (k0, vs0)); simpl; [|apply IH, N2].
    destruct (String.eqb_spec k k0); [congruence|]. apply IH, N2.
Qed.

End Dict.


(** * The index built by a run that completes *)

Section Index.

Variable es : list (path * node).

Lemma index_get (paths : list path) :
  forall (d : dict) (h : string),
    dict_get (fold_left (add es) paths d) h
    = match dict_get d h, members es h paths with
      | Some vs, m => Some (vs ++ m)
      | None, [] => None
      | None, m => Some m
      end.
Proof.
  induction paths as [|p paths IH]; intros d h; simpl.
  - destruct (dict_get d h); [rewrite app_nil_r|]; reflexivity.
  - rewrite IH. unfold add. rewrite dict_get_append.
    unfold members. simpl.
    destruct (String.eqb_spec h (fingerprint es p)) as [->|N].
    + destruct (dict_get d (fingerprint es p)) as [vs|].
      * rewrite <- app_assoc. reflexivity.
      * reflexivity.
    + reflexivity.
Qed.

Lemma index_keys_nodup (paths : list path) :
  forall d, NoDup (keys d) -> NoDup (keys (fold_left (add es) paths d)).
Proof.
  induction paths as [|p paths IH]; intros d N; simpl; [exact N|].
  apply IH, keys_append_nodup, N.
Qed.

Lemma index_all_paths (paths : list path) :
  forall d,
    Permutation (all_paths (fold_left (add es) paths d))
                (all_paths d ++ paths).
Proof.
  induction paths as [|p paths IH]; intros d; simpl.
  - rewrite app_nil_r. reflexivity.
  - rewrite IH. unfold add. rewrite all_paths_append.
    simpl. apply Permutation_middle.
Qed.

Lemma members_in (h : string) (paths : list path) (p : path) :
  In p (members es h paths) <-> In p paths /\ fingerprint es p = h.
Proof.
  unfold members. rewrite filter_In, String.eqb_eq.
  split; intros [? ?]; split; congruence.
Qed.

End Index.

Lemma filter_all {A} (f : A -> bool) (l : list A) :
  Forall (fun x => f x = true) (filter f l).
Proof. apply Forall_forall. intros x I. apply filter_In in I. tauto. Qed.

Lemma two_members {A} (x y : A) (l : list A) :
  In x l -> In y l -> x <> y -> (1 <? List.length l)%nat = true.
Proof.
  intros X Y N. apply Nat.ltb_lt.
  destruct l as [|a [|b l]]; simpl in *; [tauto| |lia].
  destruct X as [<-|[]], Y as [<-|[]]. congruence.
Qed.

(** A run of the loop that returns has hashed every discovered file, in
    discovery order, and has filed each under its fingerprint. *)
Lemma build_index_ok (directory : path) (w : world) (hash_dict : dict) :
  fst (build_index directory w) = Ok hash_dict ->
  hash_dict = fold_left (add (entries w)) (discovered directory w) []
  /\ Forall (hashes (entries w)) (discovered directory w)
  /\ snd (build_index directory w) = logged w (discovered directory w).
Proof.
  rewrite build_index_spec. cbn [fst snd]. intros S.
  pose proof (scan_ok_inv _ _ _ _ S) as H. fold (discovered directory w) in H.
  rewrite scan_regular in S. fold (discovered directory w) in S.
  rewrite attempted_regular. fold (discovered directory w).
  rewrite scan_ok in S by (auto; apply filter_all).
  rewrite attempted_ok by (auto; apply filter_all).
  injection S as <-. auto.
Qed.

(** The loop returns as soon as every discovered file can be hashed. *)
Lemma build_index_total (directory : path) (w : world) :
  Forall (hashes (entries w)) (discovered directory w) ->
  fst (build_index directory w)
  = Ok (fold_left (add (entries w)) (discovered directory w) []).
Proof.
  intros H. rewrite build_index_spec. cbn [fst].
  rewrite scan_regular. fold (discovered directory w).
  apply scan_ok; [apply filter_all|exact H].
Qed.

Lemma find_duplicates_basic_index (directory : path) (w : world) :
  fst (find_duplicates_basic directory w)
  = match fst (build_index directory w) with
    | Ok hash_dict => Ok (filter more_than_one hash_dict)
    | Raise e => Raise e
    end.
Proof.
  rewrite find_duplicates_basic_spec, build_index_spec. reflexivity.
Qed.

Lemma find_duplicates_basic_ok (directory : path) (w : world)
      (duplicates : dict) :
  fst (find_duplicates_basic directory w) = Ok duplicates ->
  exists hash_dict,
    fst (build_index directory w) = Ok hash_dict
    /\ duplicates = filter more_than_one hash_dict.
Proof.
  rewrite find_duplicates_basic_index.
  destruct (fst (build_index directory w)) as [d|e]; [|discriminate].
  intros E. injection E as <-. eauto.
Qed.

(** When every discovered file is readable the run returns a mapping. *)
Lemma find_duplicates_basic_returns (directory : path) (w : world) :
  (forall p f,
      In p (discovered directory w) ->
      find_node p (entries w) = Some (Regular f) ->
      fault f = None) ->
  exists duplicates, fst (find_duplicates_basic directory w) = Ok duplicates.
Proof.
  intros A. rewrite find_duplicates_basic_index, build_index_total; [eauto|].
  apply Forall_forall. intros p D.
  destruct (discovered_inv _ _ _ D) as (_ & f & F).
  exists (hash_whole_file (content f)).
  apply hash_of_readable; [exact F|exact (A _ _ D F)].
Qed.

(** Every group of the returned mapping, by its fingerprint. *)
Lemma duplicates_get (directory : path) (w : world) (duplicates : dict) :
  fst (find_duplicates_basic directory w) = Ok duplicates ->
  forall h,
    dict_get duplicates h
    = let group := members (entries w) h (discovered directory w) in
      if (1 <? List.length group)%nat then Some group else None.
Proof.
  intros R h. destruct (find_duplicates_basic_ok _ _ _ R) as (d & B & ->).
  destruct (build_index_ok _ _ _ B) as (-> & _ & _).
  rewrite dict_get_filter by (apply index_keys_nodup; constructor).
  rewrite index_get. simpl dict_get. cbv zeta.
  destruct (members (entries w) h (discovered directory w)) as [|p m];
    reflexivity.
Qed.

Lemma fingerprint_regular es (p : path) (f : file) :
  find_node p es = Some (Regular f) ->
  hashes es p ->
  fingerprint es p = hash_whole_file (content f).
Proof.
  intros F [h H]. unfold fingerprint. rewrite H.
  eapply hash_of_sound; eauto.
Qed.

(** * Grouping *)

(** C1: two distinct regular files under the scanned root with the same
    bytes are both members of one group of the mapping returned by
    [find_duplicates_basic], whatever their names and places; the group is
    the one filed under the fingerprint of their content. *)
Theorem identical_content_same_group
        (directory : path) (w : world) (duplicates : dict)
        (p1 p2 : path) (f1 f2 : file) :
  fst (find_duplicates_basic directory w) = Ok duplicates ->
  is_under directory p1 = true ->
  is_under directory p2 = true ->
  find_node p1 (entries w) = Some (Regular f1) ->
  find_node p2 (entries w) = Some (Regular f2) ->
  p1 <> p2 ->
  content f1 = content f2 ->
  exists files,
    dict_get duplicates (hash_whole_file (content f1)) = Some files
    /\ In p1 files /\ In p2 files.
Proof.
  intros R U1 U2 F1 F2 N C.
  pose proof (in_discovered _ _ _ _ U1 F1) as D1.
  pose proof (in_discovered _ _ _ _ U2 F2) as D2.
  destruct (find_duplicates_basic_ok _ _ _ R) as (d & B & _).
  destruct (build_index_ok _ _ _ B) as (_ & H & _).
  rewrite Forall_forall in H.
  pose proof (fingerprint_regular _ _ _ F1 (H _ D1)) as E1.
  pose proof (fingerprint_regular _ _ _ F2 (H _ D2)) as E2.
  rewrite <- C in E2.
  set (h := hash_whole_file (content f1)) in *.
  assert (M1 : In p1 (members (entries w) h (discovered directory w)))
    by (apply members_in; auto).
  assert (M2 : In p2 (members (entries w) h (discovered directory w)))
    by (apply members_in; auto).
  exists (members (entries w) h (discovered directory w)).
  rewrite (duplicates_get _ _ _ R). cbv zeta.
  rewrite (two_members _ _ _ M1 M2 N). auto.
Qed.

Lemma identical_content_same_group_witness :
  exists files,
    dict_get [("5d41402abc4b2a76b9719d911017c592",
               [["x"; "1.txt"]; ["y"; "2.txt"]])]%string
             (hash_whole_file (bytes_of_string "hello")) = Some files
    /\ In ["x"; "1.txt"]%string files /\ In ["y"; "2.txt"]%string files.
Proof.
  apply (identical_content_same_group
           [] hello_world _ ["x"; "1.txt"]%string ["y"; "2.txt"]%string
           (File (bytes_of_string "hello") None)
           (File (bytes_of_string "hello") None)).
  - vm_compute. reflexivity.
  - reflexivity.
  - reflexivity.
  - reflexivity.
  - reflexivity.
  - discriminate.
  - reflexivity.
Defined.

(** C2: the returned mapping is the index restricted to the fingerprints
    with two or more paths.  A bucket of the index with at least two
    members is returned unchanged, its members being the discovered files
    with that fingerprint in discovery order; a bucket with fewer than two
    members is not returned. *)
Theorem duplicates_restrict_index
        (directory : path) (w : world) (duplicates : dict) :
  fst (find_duplicates_basic directory w) = Ok duplicates ->
  exists hash_dict,
    fst (build_index directory w) = Ok hash_dict
    /\ (forall h files,
           dict_get duplicates h = Some files
           <-> dict_get hash_dict h = Some files
               /\ (2 <= List.length files)%nat)
    /\ (forall h files,
           In (h, files) duplicates
           <-> In (h, files) hash_dict /\ (2 <= List.length files)%nat)
    /\ (forall h files,
           dict_get hash_dict h = Some files ->
           files = members (entries w) h (discovered directory w)).
Proof.
  intros R. destruct (find_duplicates_basic_ok _ _ _ R) as (d & B & ->).
  exists d. split; [exact B|].
  destruct (build_index_ok _ _ _ B) as (E & _ & _).
  assert (N : NoDup (keys d))
    by (rewrite E; apply index_keys_nodup; constructor).
  split; [|split].
  - intros h files. rewrite dict_get_filter by exact N.
    destruct (dict_get d h) as [vs|].
    + unfold more_than_one. simpl snd.
      destruct (Nat.ltb_spec 1 (List.length vs)).
      * split; [intros X; injection X as <-; auto|tauto].
      * split; [discriminate|].
        intros [X Y]. injection X as <-. lia.
    + split; [discriminate|intros []; discriminate].
  - intros h files. rewrite filter_In. unfold more_than_one. simpl snd.
    rewrite Nat.ltb_lt. reflexivity.
  - intros h files G. rewrite E, index_get in G. simpl dict_get in G.
    destruct (members (entries w) h (discovered directory w));
      [discriminate|congruence].
Qed.

Lemma duplicates_restrict_index_witness :
  exists hash_dict,
    fst (build_index [] hello_world) = Ok hash_dict
    /\ (forall h files,
           dict_get [("5d41402abc4b2a76b9719d911017c592",
                      [["x"; "1.txt"]; ["y"; "2.txt"]])]%string h
           = Some files
           <-> dict_get hash_dict h = Some files
               /\ (2 <= List.length files)%nat)
    /\ (forall h files,
           In (h, files) [("5d41402abc4b2a76b9719d911017c592",
                           [["x"; "1.txt"]; ["y"; "2.txt"]])]%string
           <-> In (h, files) hash_dict /\ (2 <= List.length files)%nat)
    /\ (forall h files,
           dict_get hash_dict h = Some files ->
           files = members (entries hello_world) h
                           (discovered [] hello_world)).
Proof.
  apply (duplicates_restrict_index [] hello_world).
  vm_compute. reflexivity.
Defined.

(** * The accumulator against the block-wise reading of RFC 1321 *)

Section Accumulator.

Import MD5.
Local Open Scope Z_scope.

Lemma count_update (bs : list byte) :
  forall h, count (update h bs) = count h + Z.of_nat (List.length bs).
Proof.
  unfold update. induction bs as [|b bs IH]; intros h.
  - simpl. lia.
  - cbn [fold_left List.length]. rewrite IH. unfold absorb.
    destruct (List.length (pending h ++ [b]) =? 64)%nat; simpl count; lia.
Qed.

(** Bytes that complete the current block trigger one compression. *)
Lemma update_fill (bs : list byte) :
  forall (r : regs) (pend : list byte) (c : Z),
    bs <> [] ->
    (List.length pend + List.length bs = 64)%nat ->
    update (Hasher r pend c) bs
    = Hasher (compress r (pend ++ bs)) [] (c + Z.of_nat (List.length bs)).
Proof.
  unfold update. induction bs as [|b bs IH]; intros r pend c N L;
    [congruence|].
  cbn [fold_left]. unfold absorb at 2. cbn [pending state count].
  destruct bs as [|b' bs].
  - simpl in L.
    assert (E : (List.length (pend ++ [b]) =? 64)%nat = true)
      by (apply Nat.eqb_eq; rewrite length_app; simpl; lia).
    rewrite E. reflexivity.
  - assert (E : (List.length (pend ++ [b]) =? 64)%nat = false)
      by (apply Nat.eqb_neq; rewrite length_app; simpl in *; lia).
    rewrite E, IH.
    + rewrite <- app_assoc. f_equal. cbn [List.length]. lia.
    + discriminate.
    + rewrite length_app. simpl in *. lia.
Qed.

Lemma blocks_cons (b : byte) (data : list byte) :
  blocks (b :: data)
  = firstn 64 (b :: data) :: blocks (skipn 64 (b :: data)).
Proof. apply blocks_equation_2. Qed.

(** Whole blocks go through the compression function one after the
    other and leave nothing pending. *)
Lemma update_blocks (n : nat) :
  forall (data : list byte) (r : regs) (c : Z),
    (List.length data = 64 * n)%nat ->
    update (Hasher r [] c) data
    = Hasher (fold_left compress (blocks data) r) []
             (c + Z.of_nat (List.length data)).
Proof.
  induction n as [|n IH]; intros data r c L.
  - destruct data; [|simpl in L; lia].
    rewrite blocks_equation_1. simpl. f_equal. lia.
  - destruct data as [|b data]; [simpl in L; lia|].
    rewrite blocks_cons. cbn [fold_left].
    set (whole := b :: data) in *.
    assert (L1 : List.length (firstn 64 whole) = 64%nat)
      by (rewrite length_firstn; lia).
    assert (L2 : (List.length (skipn 64 whole) = 64 * n)%nat)
      by (rewrite length_skipn; lia).
    rewrite <- (firstn_skipn 64 whole) at 1.
    rewrite <- update_app.
    rewrite update_fill;
      [|intros E; rewrite E in L1; discriminate
       |rewrite L1; reflexivity].
    cbn [app]. rewrite (IH _ _ _ L2). f_equal.
    rewrite <- (firstn_skipn 64 whole) at 3.
    rewrite length_app. lia.
Qed.

Lemma length_le_bytes (n : nat) : forall z, List.length (le_bytes n z) = n.
Proof. induction n; intros z; simpl; auto. Qed.

(** The padded message is a whole number of blocks. *)
Lemma padded_length (data : list byte) :
  exists n,
    (List.length (data ++ padding (Z.of_nat (List.length data)))
     = 64 * n)%nat.
Proof.
  set (len := Z.of_nat (List.length data)).
  pose proof (Z.div_mod (55 - len) 64 ltac:(lia)) as D.
  pose proof (Z.mod_pos_bound (55 - len) 64 ltac:(lia)) as B.
  exists (Z.to_nat (1 - (55 - len) / 64)).
  unfold padding. fold len.
  rewrite length_app. cbn [List.length].
  rewrite length_app, repeat_length, length_le_bytes. lia.
Qed.

(** Feeding the accumulator and asking for the digest computes the MD5
    of RFC 1321. *)
Lemma hash_whole_file_rfc (data : list byte) :
  hash_whole_file data = md5_rfc data.
Proof.
  unfold hash_whole_file, hexdigest, digest, md5_rfc, chain.
  rewrite count_update, update_app. cbn [count md5]. rewrite Z.add_0_l.
  destruct (padded_length data) as [n L].
  unfold md5. rewrite (update_blocks n _ iv 0 L). reflexivity.
Qed.

End Accumulator.

(** * The fingerprint of one file *)

(** C3: on a readable file the chunked loop of [get_file_hash], which
    feeds the accumulator 8192 bytes at a time until a read comes back
    empty, returns the digest of the whole content fed in one piece, which
    is the MD5 of the content as RFC 1321 defines it. *)
Theorem chunked_hash_refines_whole_file (w : world) (p : path) (f : file) :
  find_node p (entries w) = Some (Regular f) ->
  fault f = None ->
  fst (get_file_hash p w) = Ok (hash_whole_file (content f))
  /\ hash_whole_file (content f) = MD5.md5_rfc (content f).
Proof.
  intros F R. rewrite get_file_hash_spec. cbn [fst].
  split; [apply hash_of_readable; assumption|apply hash_whole_file_rfc].
Qed.

Lemma chunked_hash_refines_whole_file_witness :
  fst (get_file_hash ["big"]%string two_chunks)
  = Ok (hash_whole_file (repeat x00 8193))
  /\ hash_whole_file (repeat x00 8193) = MD5.md5_rfc (repeat x00 8193).
Proof.
  apply (chunked_hash_refines_whole_file
           two_chunks ["big"]%string (File (repeat x00 8193) None));
    reflexivity.
Defined.

Lemma byte_val_range (b : byte) : (0 <= MD5.byte_val b < 256)%Z.
Proof.
  unfold MD5.byte_val. pose proof (Byte.to_N_bounded b). lia.
Qed.

Lemma hex_digit_lower (n : Z) :
  (0 <= n < 16)%Z -> is_lower_hex (MD5.hex_digit n) = true.
Proof.
  intros B. unfold MD5.hex_digit.
  assert (T : Forall (fun c => is_lower_hex c = true)
                ["0"; "1"; "2"; "3"; "4"; "5"; "6"; "7";
                 "8"; "9"; "a"; "b"; "c"; "d"; "e"; "f"]%char)
    by (repeat constructor).
  rewrite Forall_forall in T. apply T. apply nth_In. simpl. lia.
Qed.

Lemma hex_length (bs : list byte) :
  String.length (MD5.hex bs) = (2 * List.length bs)%nat.
Proof. induction bs as [|b bs IH]; simpl; [reflexivity|]. rewrite IH. lia. Qed.

Lemma hex_lower (bs : list byte) :
  forallb is_lower_hex (list_ascii_of_string (MD5.hex bs)) = true.
Proof.
  induction bs as [|b bs IH]; [reflexivity|].
  pose proof (byte_val_range b) as B.
  cbn [MD5.hex list_ascii_of_string forallb]. rewrite IH.
  rewrite !hex_digit_lower; [reflexivity| |].
  - apply Z.mod_pos_bound. lia.
  - split; [apply Z.div_pos; lia|apply Z.div_lt_upper_bound; lia].
Qed.

Lemma digest_length (h : MD5.hasher) : List.length (MD5.digest h) = 16%nat.
Proof.
  unfold MD5.digest. rewrite !length_app, !length_le_bytes. reflexivity.
Qed.

Lemma hexdigest_width (h : MD5.hasher) :
  String.length (MD5.hexdigest h) = 32%nat
  /\ forallb is_lower_hex (list_ascii_of_string (MD5.hexdigest h)) = true.
Proof.
  unfold MD5.hexdigest. rewrite hex_length, digest_length.
  split; [reflexivity|apply hex_lower].
Qed.

(** C10: on a readable file [get_file_hash] returns a string of exactly
    32 characters, each a digit or a letter from a to f in lower case,
    whatever the size and the bytes of the file. *)
Theorem fingerprint_is_32_lower_hex (w : world) (p : path) (f : file) :
  find_node p (entries w) = Some (Regular f) ->
  fault f = None ->
  exists h,
    fst (get_file_hash p w) = Ok h
    /\ String.length h = 32%nat
    /\ forallb is_lower_hex (list_ascii_of_string h) = true.
Proof.
  intros F R. exists (hash_whole_file (content f)).
  rewrite get_file_hash_spec. cbn [fst].
  split; [apply hash_of_readable; assumption|apply hexdigest_width].
Qed.

Lemma fingerprint_is_32_lower_hex_witness :
  exists h,
    fst (get_file_hash ["x"; "1.txt"]%string hello_world) = Ok h
    /\ String.length h = 32%nat
    /\ forallb is_lower_hex (list_ascii_of_string h) = true.
Proof.
  apply (fingerprint_is_32_lower_hex
           hello_world ["x"; "1.txt"]%string
           (File (bytes_of_string "hello") None)); reflexivity.
Defined.

(** Every fingerprint a run files a path under has that width too. *)
Lemma index_keys_width (directory : path) (w : world) (hash_dict : dict)
      (h : string) (files : list path) :
  fst (build_index directory w) = Ok hash_dict ->
  dict_get hash_dict h = Some files ->
  String.length h = 32%nat.
Proof.
  intros B G. destruct (build_index_ok _ _ _ B) as (E & H & _).
  rewrite E, index_get in G. simpl dict_get in G.
  destruct (members (entries w) h (discovered directory w)) as [|p m] eqn:M;
    [discriminate|].
  assert (I : In p (members (entries w) h (discovered directory w)))
    by (rewrite M; left; reflexivity).
  apply members_in in I. destruct I as [D <-].
  rewrite Forall_forall in H. destruct (discovered_inv _ _ _ D) as (_ & f & F).
  rewrite (fingerprint_regular _ _ _ F (H _ D)). apply hexdigest_width.
Qed.

(** * Empty files *)

Lemma hash_of_nothing : hash_whole_file [] = md5_of_nothing.
Proof. vm_compute. reflexivity. Qed.

(** C6: a readable file of zero bytes always gets the one fingerprint
    [d41d8cd98f00b204e9800998ecf8427e], without an error; and when the
    root holds two or more empty files, the mapping returned by
    [find_duplicates_basic] has a group under that fingerprint with every
    empty file of the root in it. *)
Theorem empty_files_grouped :
  (forall (w : world) (p : path) (f : file),
      find_node p (entries w) = Some (Regular f) ->
      content f = [] ->
      fault f = None ->
      fst (get_file_hash p w) = Ok md5_of_nothing)
  /\ (forall (directory : path) (w : world) (duplicates : dict)
             (p1 p2 : path) (f1 f2 : file),
         fst (find_duplicates_basic directory w) = Ok duplicates ->
         is_under directory p1 = true ->
         is_under directory p2 = true ->
         find_node p1 (entries w) = Some (Regular f1) ->
         find_node p2 (entries w) = Some (Regular f2) ->
         content f1 = [] ->
         content f2 = [] ->
         p1 <> p2 ->
         exists files,
           dict_get duplicates md5_of_nothing = Some files
           /\ forall (p : path) (f : file),
               is_under directory p = true ->
               find_node p (entries w) = Some (Regular f) ->
               content f = [] ->
               In p files).
Proof.
  split.
  - intros w p f F C R. rewrite get_file_hash_spec. cbn [fst].
    rewrite (hash_of_readable _ _ _ F R), C, hash_of_nothing. reflexivity.
  - intros directory w duplicates p1 p2 f1 f2 R U1 U2 F1 F2 C1 C2 N.
    destruct (find_duplicates_basic_ok _ _ _ R) as (d & B & _).
    destruct (build_index_ok _ _ _ B) as (_ & H & _).
    rewrite Forall_forall in H.
    assert (M : forall p f,
               is_under directory p = true ->
               find_node p (entries w) = Some (Regular f) ->
               content f = [] ->
               In p (members (entries w) md5_of_nothing
                             (discovered directory w))).
    { intros p f U F C. pose proof (in_discovered _ _ _ _ U F) as D.
      apply members_in. split; [exact D|].
      rewrite (fingerprint_regular _ _ _ F (H _ D)), C. apply hash_of_nothing. }
    exists (members (entries w) md5_of_nothing (discovered directory w)).
    split; [|exact M].
    rewrite (duplicates_get _ _ _ R). cbv zeta.
    rewrite (two_members p1 p2 _ (M _ _ U1 F1 C1) (M _ _ U2 F2 C2) N).
    reflexivity.
Qed.

Lemma empty_files_grouped_witness :
  fst (get_file_hash ["a.txt"]%string empty_files) = Ok md5_of_nothing
  /\ exists files,
      dict_get [(md5_of_nothing, [["a.txt"]; ["b.txt"]])]%string
               md5_of_nothing = Some files
      /\ forall (p : path) (f : file),
          is_under [] p = true ->
          find_node p (entries empty_files) = Some (Regular f) ->
          content f = [] ->
          In p files.
Proof.
  split.
  - apply (proj1 empty_files_grouped empty_files ["a.txt"]%string
                 (File [] None)); reflexivity.
  - apply (proj2 empty_files_grouped [] empty_files _
                 ["a.txt"]%string ["b.txt"]%string
                 (File [] None) (File [] None)).
    + vm_compute. reflexivity.
    + reflexivity.
    + reflexivity.
    + reflexivity.
    + reflexivity.
    + reflexivity.
    + reflexivity.
    + discriminate.
Defined.

(** * The file system is only read *)

Lemma open_wb_truncates :
  entries (snd (open_ ["x"; "1.txt"]%string wb hello_world))
  <> entries hello_world.
Proof. vm_compute. discriminate. Qed.

(** C9: [get_file_hash] and [find_duplicates_basic] leave every entry of
    the file system as it was: all they add to the world is [open] calls in
    mode ["rb"], and nothing is written to standard output. *)
Theorem scan_leaves_file_system_unchanged
        (directory : path) (p : path) (w : world) :
  (entries (snd (get_file_hash p w)) = entries w
   /\ opened (snd (get_file_hash p w)) = opened w ++ [(p, rb)]
   /\ stdout (snd (get_file_hash p w)) = stdout w)
  /\ (entries (snd (find_duplicates_basic directory w)) = entries w
      /\ (exists files,
             opened (snd (find_duplicates_basic directory w))
             = opened w ++ map (fun q => (q, rb)) files)
      /\ stdout (snd (find_duplicates_basic directory w)) = stdout w).
Proof.
  rewrite get_file_hash_spec, find_duplicates_basic_spec. cbn [snd].
  unfold logged. cbn [entries opened stdout map].
  repeat split; eauto.
Qed.

(** * Every file is hashed once and filed once *)

(** C5: in a run of the loop of [find_duplicates_basic] over a listing that
    names each path once, every discovered regular file is opened, and so
    hashed, exactly once; the paths of all the buckets of the index are
    pairwise distinct, so no path is in two buckets or twice in one; and a
    discovered file is in the bucket of its own fingerprint and of no
    other. *)
Theorem each_file_hashed_and_filed_once
        (directory : path) (w : world) (hash_dict : dict) :
  NoDup (map fst (entries w)) ->
  fst (build_index directory w) = Ok hash_dict ->
  opened (snd (build_index directory w))
  = opened w ++ map (fun p => (p, rb)) (discovered directory w)
  /\ NoDup (discovered directory w)
  /\ NoDup (keys hash_dict)
  /\ NoDup (all_paths hash_dict)
  /\ forall p,
      In p (discovered directory w) ->
      (exists files,
          dict_get hash_dict (fingerprint (entries w) p) = Some files
          /\ In p files)
      /\ forall h files,
          In (h, files) hash_dict -> In p files ->
          h = fingerprint (entries w) p.
Proof.
  intros N B. destruct (build_index_ok _ _ _ B) as (E & _ & W).
  assert (ND : NoDup (discovered directory w))
    by (unfold discovered, listing; auto using NoDup_filter).
  assert (NK : NoDup (keys hash_dict))
    by (rewrite E; apply index_keys_nodup; constructor).
  split; [rewrite W; reflexivity|].
  split; [exact ND|]. split; [exact NK|]. split.
  - eapply Permutation_NoDup; [|exact ND].
    rewrite E. symmetry. apply (index_all_paths (entries w) _ []).
  - intros p D. split.
    + exists (members (entries w) (fingerprint (entries w) p)
                      (discovered directory w)).
      assert (I : In p (members (entries w) (fingerprint (entries w) p)
                                (discovered directory w)))
        by (apply members_in; auto).
      split; [|exact I].
      rewrite E, index_get. simpl dict_get.
      destruct (members _ _ _); [destruct I|reflexivity].
    + intros h files I P. apply (in_dict_get _ _ _ NK) in I.
      rewrite E, index_get in I. simpl dict_get in I.
      destruct (members (entries w) h (discovered directory w)) eqn:M;
        [discriminate|].
      injection I as <-. rewrite <- M in P. apply members_in in P.
      symmetry. tauto.
Qed.

Lemma each_file_hashed_and_filed_once_witness :
  let hash_dict :=
    [("5d41402abc4b2a76b9719d911017c592", [["x"; "1.txt"]; ["y"; "2.txt"]]);
     ("7d793037a0760186574b0282f2f435e7", [["z"; "3.txt"]])]%string in
  opened (snd (build_index [] hello_world))
  = opened hello_world
    ++ map (fun p => (p, rb)) (discovered [] hello_world)
  /\ NoDup (discovered [] hello_world)
  /\ NoDup (keys hash_dict)
  /\ NoDup (all_paths hash_dict)
  /\ forall p,
      In p (discovered [] hello_world) ->
      (exists files,
          dict_get hash_dict (fingerprint (entries hello_world) p)
          = Some files
          /\ In p files)
      /\ forall h files,
          In (h, files) hash_dict -> In p files ->
          h = fingerprint (entries hello_world) p.
Proof.
  apply (each_file_hashed_and_filed_once [] hello_world).
  - simpl. distinct_paths.
  - vm_compute. reflexivity.
Defined.

(** * A file that cannot be read *)

(** C4, as the claim has it, fails: with [b.txt] unreadable between two
    readable copies of one text, [find_duplicates_basic] returns no mapping
    but raises the error of [b.txt], and [c.txt] is never opened. *)
Lemma unreadable_file_aborts_scan :
  fst (find_duplicates_basic [] locked_file) = Raise PermissionError
  /\ (forall duplicates,
         fst (find_duplicates_basic [] locked_file) <> Ok duplicates)
  /\ opened (snd (find_duplicates_basic [] locked_file))
     = [(["a.txt"], rb); (["b.txt"], rb)]%string.
Proof.
  assert (E : fst (find_duplicates_basic [] locked_file)
              = Raise PermissionError) by (vm_compute; reflexivity).
  split; [exact E|]. split; [|vm_compute; reflexivity].
  intros duplicates. rewrite E. discriminate.
Qed.

(** C4, amended: an error raised while one discovered file is hashed is
    raised by [find_duplicates_basic] itself; the run stops at that file,
    opens no file after it and returns no mapping. *)
Theorem read_error_aborts_scan
        (directory : path) (w : world)
        (before after : list path) (p : path) (e : exn) :
  discovered directory w = before ++ p :: after ->
  Forall (hashes (entries w)) before ->
  fst (get_file_hash p w) = Raise e ->
  fst (find_duplicates_basic directory w) = Raise e
  /\ opened (snd (find_duplicates_basic directory w))
     = opened w ++ map (fun q => (q, rb)) (before ++ [p]).
Proof.
  intros D H E. rewrite get_file_hash_spec in E. cbn [fst] in E.
  pose proof (filter_all (regular (entries w)) (listing directory w)) as R.
  fold (discovered directory w) in R. rewrite D in R.
  apply Forall_app in R. destruct R as [R1 R2].
  inversion R2 as [|? ? Rp _]; subst.
  rewrite find_duplicates_basic_spec. cbn [fst snd].
  rewrite scan_regular, attempted_regular. fold (discovered directory w).
  rewrite D.
  destruct (scan_raise (entries w) before after p e R1 H Rp E []) as [-> ->].
  split; reflexivity.
Qed.

Lemma read_error_aborts_scan_witness :
  fst (find_duplicates_basic [] locked_file) = Raise PermissionError
  /\ opened (snd (find_duplicates_basic [] locked_file))
     = opened locked_file
       ++ map (fun q => (q, rb)) [["a.txt"]; ["b.txt"]]%string.
Proof.
  apply (read_error_aborts_scan [] locked_file
           [["a.txt"]]%string [["c.txt"]]%string ["b.txt"]%string).
  - reflexivity.
  - constructor; [|constructor].
    exists "5d41402abc4b2a76b9719d911017c592"%string.
    vm_compute. reflexivity.
  - reflexivity.
Defined.

(** * The printed report *)

Lemma append_assoc (a b c : string) : ((a ++ b) ++ c = a ++ (b ++ c))%string.
Proof. induction a as [|x a IH]; simpl; [reflexivity|]. rewrite IH. reflexivity. Qed.

Lemma append_empty (a : string) : (a ++ "" = a)%string.
Proof. induction a as [|x a IH]; simpl; [reflexivity|]. rewrite IH. reflexivity. Qed.

Lemma lines_text_app (a b : list string) :
  lines_text (a ++ b) = (lines_text a ++ lines_text b)%string.
Proof.
  induction a as [|l a IH]; simpl; [reflexivity|].
  rewrite IH, append_assoc. reflexivity.
Qed.

Lemma printed_nil (w : world) : printed w [] = w.
Proof. destruct w. unfold printed. simpl. rewrite append_empty. reflexivity. Qed.

Lemma printed_app (w : world) (a b : list string) :
  printed (printed w a) b = printed w (a ++ b).
Proof.
  unfold printed. simpl. rewrite lines_text_app, append_assoc. reflexivity.
Qed.

Lemma print_spec (s : string) (w : world) :
  print s w = (Ok tt, printed w [s]).
Proof. reflexivity. Qed.

Lemma print_files_spec (files : list path) :
  forall w,
    print_files files w
    = (Ok tt, printed w (map (fun f => (" - " ++ str f)%string) files)).
Proof.
  induction files as [|f files IH]; intros w; cbn [print_files map].
  - unfold ret. rewrite printed_nil. reflexivity.
  - unfold bind. rewrite print_spec. cbv beta iota.
    rewrite IH, printed_app. reflexivity.
Qed.

Lemma print_groups_spec (items : dict) :
  forall w,
    print_groups items w
    = (Ok tt, printed w (report_lines "Hash:" "/n" items)).
Proof.
  induction items as [|[h files] items IH]; intros w; cbn [print_groups].
  - unfold ret. rewrite printed_nil. reflexivity.
  - unfold bind. rewrite print_spec. cbv beta iota.
    rewrite print_files_spec. cbv beta iota.
    rewrite print_spec. cbv beta iota.
    rewrite IH, !printed_app. unfold report_lines at 2.
    cbn [flat_map snd app]. rewrite <- app_assoc. reflexivity.
Qed.

Lemma main_spec (w : world) :
  main w
  = match fst (find_duplicates_basic [] w) with
    | Ok duplicates =>
        (Ok tt,
         printed (snd (find_duplicates_basic [] w))
                 (report_lines "Hash:" "/n" duplicates))
    | Raise e => (Raise e, snd (find_duplicates_basic [] w))
    end.
Proof.
  unfold main, bind. destruct (find_duplicates_basic [] w) as [[d|e] w'];
    cbn [fst snd]; [apply print_groups_spec|reflexivity].
Qed.

(** C8, as the claim has it, fails: a scan that finds no duplicate group
    prints nothing at all. *)
Lemma no_duplicates_prints_nothing :
  fst (find_duplicates_basic [] no_duplicates) = Ok []
  /\ fst (main no_duplicates) = Ok tt
  /\ stdout (snd (main no_duplicates)) = ""%string.
Proof. vm_compute. auto. Qed.

(** C8, amended: for each duplicate group, in the order of the mapping,
    the report is one header line, then one line [ - path] for each member
    in order, then one separator line; and a scan that finds no duplicate
    group prints nothing. *)
Theorem report_blocks_and_silence :
  exists header separator : string,
    forall (w : world) (duplicates : dict),
      fst (find_duplicates_basic [] w) = Ok duplicates ->
      fst (main w) = Ok tt
      /\ stdout (snd (main w))
         = (stdout w ++ lines_text (report_lines header separator duplicates))%string
      /\ (duplicates = [] -> stdout (snd (main w)) = stdout w).
Proof.
  exists "Hash:"%string, "/n"%string. intros w duplicates R.
  assert (S : stdout (snd (main w))
              = (stdout w
                 ++ lines_text (report_lines "Hash:" "/n" duplicates))%string).
  { rewrite main_spec, R. cbn [snd]. unfold printed. cbn [stdout].
    rewrite find_duplicates_basic_spec. reflexivity. }
  split; [rewrite main_spec, R; reflexivity|]. split; [exact S|].
  intros ->. rewrite S. simpl. apply append_empty.
Qed.

Lemma report_blocks_and_silence_witness :
  exists header separator : string,
    fst (main hello_world) = Ok tt
    /\ stdout (snd (main hello_world))
       = (stdout hello_world
          ++ lines_text
               (report_lines header separator
                  [("5d41402abc4b2a76b9719d911017c592",
                    [["x"; "1.txt"]; ["y"; "2.txt"]])]))%string
    /\ ([("5d41402abc4b2a76b9719d911017c592",
          [["x"; "1.txt"]; ["y"; "2.txt"]])]%string = []
        -> stdout (snd (main hello_world)) = stdout hello_world).
Proof.
  destruct report_blocks_and_silence as (header & separator & H).
  exists header, separator. apply (H hello_world).
  vm_compute. reflexivity.
Defined.

(** * Fingerprints of files of different sizes *)

Section Pigeonhole.

(** A value is taken below a bound, or it is not. *)
Lemma bounded_search (f : nat -> nat) (v : nat) (n : nat) :
  (exists i, i <= n /\ f i = v) \/ (forall i, i <= n -> f i <> v).
Proof.
  induction n as [|n [(i & L & E)|IH]].
  - destruct (Nat.eq_dec (f 0) v) as [E|N].
    + left. exists 0. auto.
    + right. intros i L. replace i with 0 by lia. exact N.
  - left. exists i. split; [lia|exact E].
  - destruct (Nat.eq_dec (f (S n)) v) as [E|N].
    + left. exists (S n). auto.
    + right. intros i L.
      destruct (Nat.eq_dec i (S n)) as [->|D]; [exact N|apply IH; lia].
Qed.

(** [k + 1] arguments with values below [k]: two of them share a value. *)
Lemma pigeonhole (k : nat) :
  forall f : nat -> nat,
    (forall i, i <= k -> f i < k) ->
    exists i j, i < j /\ j <= k /\ f i = f j.
Proof.
  induction k as [|k IH]; intros f B.
  - specialize (B 0 (le_n 0)). lia.
  - destruct (bounded_search f (f (S k)) k) as [(i & L & E)|D].
    + exists i, (S k). split; [lia|]. split; [lia|exact E].
    + remember (f (S k)) as v eqn:V.
      set (g := fun i => if f i <? v then f i else pred (f i)).
      destruct (IH g) as (i & j & Lij & Lj & E).
      * intros i L. unfold g.
        pose proof (B i ltac:(lia)) as Bi.
        pose proof (B (S k) ltac:(lia)) as Bk. rewrite <- V in Bk.
        pose proof (D i L) as Di.
        destruct (Nat.ltb_spec (f i) v); lia.
      * exists i, j. split; [exact Lij|]. split; [lia|].
        pose proof (D i ltac:(lia)) as Di.
        pose proof (D j ltac:(lia)) as Dj.
        unfold g in E.
        destruct (Nat.ltb_spec (f i) v), (Nat.ltb_spec (f j) v); lia.
Qed.

(** The same on integers, so that the bound can be a large constant. *)
Lemma pigeonhole_Z (k : Z) (f : Z -> Z) :
  (0 <= k)%Z ->
  (forall i, (0 <= i <= k)%Z -> (0 <= f i < k)%Z) ->
  exists i j, (0 <= i < j)%Z /\ (j <= k)%Z /\ f i = f j.
Proof.
  intros K B.
  destruct (pigeonhole (Z.to_nat k)
                       (fun i => Z.to_nat (f (Z.of_nat i))))
    as (i & j & Lij & Lj & E).
  - intros i L. pose proof (B (Z.of_nat i) ltac:(lia)). lia.
  - exists (Z.of_nat i), (Z.of_nat j).
    pose proof (B (Z.of_nat i) ltac:(lia)).
    pose proof (B (Z.of_nat j) ltac:(lia)).
    split; [lia|]. split; lia.
Qed.

End Pigeonhole.

Section Collisions.

Import MD5.
Local Open Scope Z_scope.

Lemma w32_range (x : Z) : 0 <= w32 x < 2 ^ 32.
Proof.
  unfold w32. change 0xFFFFFFFF with (Z.ones 32).
  rewrite Z.land_ones by lia. apply Z.mod_pos_bound. lia.
Qed.

Lemma compress_bounded (r : regs) (block : list byte) :
  regs_bounded (compress r block).
Proof.
  unfold compress, regs_bounded. cbv zeta. cbn [rA rB rC rD].
  auto using w32_range.
Qed.

Lemma chain_bounded (message : list byte) : regs_bounded (chain message).
Proof.
  unfold chain.
  assert (G : forall bs r,
             regs_bounded r -> regs_bounded (fold_left compress bs r)).
  { induction bs as [|b bs IH]; intros r R; simpl; [exact R|].
    apply IH, compress_bounded. }
  apply G. unfold regs_bounded, iv. cbn [rA rB rC rD]. lia.
Qed.

Lemma code_range (r : regs) : regs_bounded r -> 0 <= code r < 2 ^ 128.
Proof. unfold regs_bounded, code. lia. Qed.

Lemma code_inj (r r' : regs) :
  regs_bounded r -> regs_bounded r' -> code r = code r' -> r = r'.
Proof.
  destruct r, r'. unfold regs_bounded, code. cbn [rA rB rC rD].
  intros B B' E. f_equal; lia.
Qed.

(** In the model, among the files of zeros of sizes 0 to [2 ^ 128] two
    have one fingerprint: there are more sizes than fingerprints. *)
Lemma sizes_collide :
  exists m n : nat,
    m <> n
    /\ hash_whole_file (repeat x00 m) = hash_whole_file (repeat x00 n).
Proof.
  destruct (pigeonhole_Z (2 ^ 128)
              (fun i => code (chain (repeat x00 (Z.to_nat i)))))
    as (i & j & Lij & _ & E).
  - lia.
  - intros i _. apply code_range, chain_bounded.
  - apply code_inj in E; try apply chain_bounded.
    exists (Z.to_nat i), (Z.to_nat j). split; [lia|].
    rewrite !hash_whole_file_rfc. unfold md5_rfc. rewrite E. reflexivity.
Qed.

End Collisions.

(** * Which files share a group *)

Lemma equal_fingerprints_grouped
      (directory : path) (w : world) (duplicates : dict) (p1 p2 : path) :
  fst (find_duplicates_basic directory w) = Ok duplicates ->
  In p1 (discovered directory w) ->
  In p2 (discovered directory w) ->
  p1 <> p2 ->
  fingerprint (entries w) p1 = fingerprint (entries w) p2 ->
  exists files,
    dict_get duplicates (fingerprint (entries w) p1) = Some files
    /\ In p1 files /\ In p2 files.
Proof.
  intros R D1 D2 N E.
  set (h := fingerprint (entries w) p1) in *.
  assert (M1 : In p1 (members (entries w) h (discovered directory w)))
    by (apply members_in; auto).
  assert (M2 : In p2 (members (entries w) h (discovered directory w)))
    by (apply members_in; auto).
  exists (members (entries w) h (discovered directory w)).
  rewrite (duplicates_get _ _ _ R). cbv zeta.
  rewrite (two_members _ _ _ M1 M2 N). auto.
Qed.

Lemma group_members
      (directory : path) (w : world) (duplicates : dict)
      (h : string) (files : list path) :
  fst (find_duplicates_basic directory w) = Ok duplicates ->
  In (h, files) duplicates ->
  files = members (entries w) h (discovered directory w).
Proof.
  intros R I. destruct (find_duplicates_basic_ok _ _ _ R) as (d & B & ->).
  apply filter_In in I. destruct I as [I _].
  destruct (build_index_ok _ _ _ B) as (E & _ & _).
  apply in_dict_get in I; [|rewrite E; apply index_keys_nodup; constructor].
  rewrite E, index_get in I. simpl dict_get in I.
  destruct (members (entries w) h (discovered directory w));
    [discriminate|congruence].
Qed.

(** A remark on the model, where a file may have any size: two files of
    zeros of different sizes are returned in one group.  The pair is not
    computed and its sizes are beyond any file system; the remark only
    shows that sizes cannot be proved to separate files from the digest
    alone. *)
Lemma different_sizes_one_group :
  exists (w : world) (duplicates : dict) (p1 p2 : path) (f1 f2 : file)
         (h : string) (files : list path),
    fst (find_duplicates_basic [] w) = Ok duplicates
    /\ is_under [] p1 = true
    /\ is_under [] p2 = true
    /\ find_node p1 (entries w) = Some (Regular f1)
    /\ find_node p2 (entries w) = Some (Regular f2)
    /\ List.length (content f1) <> List.length (content f2)
    /\ In (h, files) duplicates
    /\ In p1 files /\ In p2 files.
Proof.
  destruct sizes_collide as (m & n & N & E).
  set (f1 := File (repeat x00 m) None).
  set (f2 := File (repeat x00 n) None).
  set (w := World [(["a"]%string, Regular f1); (["b"]%string, Regular f2)]
                  [] "").
  assert (F1 : find_node ["a"]%string (entries w) = Some (Regular f1))
    by reflexivity.
  assert (F2 : find_node ["b"]%string (entries w) = Some (Regular f2))
    by reflexivity.
  assert (D : discovered [] w = [["a"]; ["b"]]%string) by reflexivity.
  assert (H : Forall (hashes (entries w)) (discovered [] w)).
  { rewrite D. repeat constructor.
    - exists (hash_whole_file (content f1)).
      apply hash_of_readable; [exact F1|reflexivity].
    - exists (hash_whole_file (content f2)).
      apply hash_of_readable; [exact F2|reflexivity]. }
  pose proof (build_index_total _ _ H) as B.
  pose proof (find_duplicates_basic_index [] w) as R. rewrite B in R.
  rewrite Forall_forall in H.
  assert (D1 : In ["a"]%string (discovered [] w)) by (rewrite D; simpl; auto).
  assert (D2 : In ["b"]%string (discovered [] w)) by (rewrite D; simpl; auto).
  assert (E1 : fingerprint (entries w) ["a"]%string
               = fingerprint (entries w) ["b"]%string).
  { rewrite (fingerprint_regular _ _ _ F1 (H _ D1)).
    rewrite (fingerprint_regular _ _ _ F2 (H _ D2)). exact E. }
  destruct (equal_fingerprints_grouped _ _ _ _ _ R D1 D2 ltac:(discriminate) E1)
    as (files & G & I1 & I2).
  exists w, (filter more_than_one
                    (fold_left (add (entries w)) (discovered [] w) [])),
         ["a"]%string, ["b"]%string, f1, f2,
         (fingerprint (entries w) ["a"]%string), files.
  repeat split; try assumption; try reflexivity.
  - unfold f1, f2. cbn [content]. rewrite !repeat_length. exact N.
  - apply dict_get_in, G.
Qed.



(** * Test vectors *)

(** The test suite of RFC 1321, appendix A.5. *)
Example md5_empty :
  hash_whole_file (bytes_of_string "") = "d41d8cd98f00b204e9800998ecf8427e"%string.
Proof. vm_compute. reflexivity. Qed.

Example md5_a :
  hash_whole_file (bytes_of_string "a") = "0cc175b9c0f1b6a831c399e269772661"%string.
Proof. vm_compute. reflexivity. Qed.

Example md5_abc :
  hash_whole_file (bytes_of_string "abc") = "900150983cd24fb0d6963f7d28e17f72"%string.
Proof. vm_compute. reflexivity. Qed.

Example md5_message_digest :
  hash_whole_file (bytes_of_string "message digest")
  = "f96b697d7cb7938d525a2f31aaf161d0"%string.
Proof. vm_compute. reflexivity. Qed.

Example md5_alphabet :
  hash_whole_file (bytes_of_string "abcdefghijklmnopqrstuvwxyz")
  = "c3fcd3d76192e4007dfb496cca67e13b"%string.
Proof. vm_compute. reflexivity. Qed.

(** Lengths around the block size, and a file that takes three reads. *)
Example md5_block_boundaries :
  map (fun n => MD5.md5_rfc (repeat "a"%byte n)) [55; 56; 64; 119; 120]
  = ["ef1772b6dff9a122358552954ad0df65";
     "3b0c8ac703f828b04c6c197006d17218";
     "014842d480b571495a4a0363793f7367";
     "8a7bd0732ed6a28ce75f6dabc90e1613";
     "5f61c0ccad4cac44c75ff505e1f1e537"]%string.
Proof. vm_compute. reflexivity. Qed.

Example get_file_hash_two_chunks :
  fst (get_file_hash ["big"]%string two_chunks)
  = Ok "209069d151d676e10aaf6d72e3e54507"%string.
Proof. vm_compute. reflexivity. Qed.

(** The scenario of the specification: one group, [z/3.txt] in none. *)
Example scan_hello_world :
  fst (find_duplicates_basic [] hello_world)
  = Ok [("5d41402abc4b2a76b9719d911017c592",
         [["x"; "1.txt"]; ["y"; "2.txt"]])]%string.
Proof. vm_compute. reflexivity. Qed.

Example main_hello_world :
  stdout (snd (main hello_world))
  = lines_text ["Hash:"; " - x/1.txt"; " - y/2.txt"; "/n"]%string.
Proof. vm_compute. reflexivity. Qed.

(** An error in the middle of the reads is raised by [get_file_hash]; a
    fault the loop never reaches changes nothing. *)
Example read_error_mid_stream :
  fst (get_file_hash ["big"]%string failing_reads) = Raise OSError
  /\ fst (get_file_hash ["late"]%string failing_reads)
     = Ok "5d41402abc4b2a76b9719d911017c592"%string.
Proof. vm_compute. auto. Qed.

(** * Further properties of the scan *)

Lemma find_duplicates_basic_entries (directory : path) (w w' : world) :
  entries w' = entries w ->
  fst (find_duplicates_basic directory w')
  = fst (find_duplicates_basic directory w).
Proof.
  intros E. rewrite !find_duplicates_basic_spec. cbn [fst].
  unfold listing. rewrite E. reflexivity.
Qed.

Lemma find_duplicates_basic_world (directory : path) (w : world) :
  entries (snd (find_duplicates_basic directory w)) = entries w
  /\ stdout (snd (find_duplicates_basic directory w)) = stdout w.
Proof. rewrite find_duplicates_basic_spec. split; reflexivity. Qed.

Lemma main_world (w : world) :
  entries (snd (main w)) = entries w
  /\ exists report,
      stdout (snd (main w)) = (stdout w ++ report)%string
      /\ report
         = match fst (find_duplicates_basic [] w) with
           | Ok duplicates => lines_text (report_lines "Hash:" "/n" duplicates)
           | Raise _ => ""%string
           end.
Proof.
  rewrite main_spec.
  destruct (find_duplicates_basic_world [] w) as [E S].
  destruct (fst (find_duplicates_basic [] w)) as [d|e]; cbn [snd].
  - unfold printed. cbn [entries stdout]. rewrite S. eauto.
  - rewrite S. split; [exact E|]. exists ""%string.
    rewrite append_empty. auto.
Qed.

(** X1: a second scan of the tree the first scan has left returns the
    same mapping or raises the same error, and running the whole script
    twice prints the same report twice. *)
Theorem scan_twice_same_report (directory : path) (w : world) :
  fst (find_duplicates_basic directory
         (snd (find_duplicates_basic directory w)))
  = fst (find_duplicates_basic directory w)
  /\ exists report,
      stdout (snd (main w)) = (stdout w ++ report)%string
      /\ stdout (snd (main (snd (main w))))
         = ((stdout w ++ report) ++ report)%string.
Proof.
  split.
  - apply find_duplicates_basic_entries, find_duplicates_basic_world.
  - destruct (main_world w) as (E & report & S & R).
    destruct (main_world (snd (main w))) as (_ & report' & S' & R').
    rewrite (find_duplicates_basic_entries [] _ _ E) in R'.
    exists report. split; [exact S|]. rewrite S', S. congruence.
Qed.

Lemma all_same_short {A} (p : A) (l : list A) :
  NoDup l -> (forall x, In x l -> x = p) -> (List.length l <= 1)%nat.
Proof.
  intros N S. destruct l as [|a [|b l]]; simpl; try lia.
  exfalso. inversion N as [|? ? N1 _]; subst. apply N1.
  rewrite (S a), (S b); simpl; auto.
Qed.

Lemma discovered_nodup (directory : path) (w : world) :
  NoDup (map fst (entries w)) -> NoDup (discovered directory w).
Proof. intros N. unfold discovered, listing. auto using NoDup_filter. Qed.

Lemma group_in_index
      (directory : path) (w : world) (duplicates : dict)
      (h : string) (files : list path) :
  fst (find_duplicates_basic directory w) = Ok duplicates ->
  In (h, files) duplicates ->
  (2 <= List.length files)%nat
  /\ Forall (hashes (entries w)) (discovered directory w).
Proof.
  intros R I. destruct (find_duplicates_basic_ok _ _ _ R) as (d & B & ->).
  apply filter_In in I. destruct I as [_ M].
  unfold more_than_one in M. cbn [snd] in M. apply Nat.ltb_lt in M.
  destruct (build_index_ok _ _ _ B) as (_ & H & _). split; [lia|exact H].
Qed.

(** X2: when the listing names each path once, a regular file whose
    fingerprint no other discovered file has is in no group of the
    returned mapping. *)
Theorem unique_file_in_no_group
        (directory : path) (w : world) (duplicates : dict)
        (p : path) (f : file) :
  NoDup (map fst (entries w)) ->
  fst (find_duplicates_basic directory w) = Ok duplicates ->
  find_node p (entries w) = Some (Regular f) ->
  (forall q g,
      is_under directory q = true ->
      find_node q (entries w) = Some (Regular g) ->
      q <> p ->
      hash_whole_file (content g) <> hash_whole_file (content f)) ->
  forall h files, In (h, files) duplicates -> ~ In p files.
Proof.
  intros N R F U h files I P.
  destruct (group_in_index _ _ _ _ _ R I) as [L H].
  rewrite Forall_forall in H.
  pose proof (group_members _ _ _ _ _ R I) as M. subst files.
  pose proof P as P'. apply members_in in P'. destruct P' as [Dp Ep].
  rewrite (fingerprint_regular _ _ _ F (H _ Dp)) in Ep.
  assert (S : forall q,
             In q (members (entries w) h (discovered directory w)) ->
             q = p).
  { intros q Q. apply members_in in Q. destruct Q as [Dq Eq].
    destruct (list_eq_dec string_dec q p) as [|Nq]; [assumption|].
    exfalso. destruct (discovered_inv _ _ _ Dq) as (Uq & g & G).
    rewrite (fingerprint_regular _ _ _ G (H _ Dq)) in Eq.
    apply (U q g Uq G Nq). congruence. }
  assert (ND : NoDup (members (entries w) h (discovered directory w)))
    by (apply NoDup_filter, discovered_nodup, N).
  pose proof (all_same_short p _ ND S). lia.
Qed.

Lemma unique_file_in_no_group_witness :
  ~ In ["z"; "3.txt"]%string [["x"; "1.txt"]; ["y"; "2.txt"]]%string.
Proof.
  refine (unique_file_in_no_group
            [] hello_world
            [("5d41402abc4b2a76b9719d911017c592",
              [["x"; "1.txt"]; ["y"; "2.txt"]])]%string
            ["z"; "3.txt"]%string (File (bytes_of_string "world") None)
            _ _ eq_refl _
            "5d41402abc4b2a76b9719d911017c592"%string
            [["x"; "1.txt"]; ["y"; "2.txt"]]%string _).
  - simpl. distinct_paths.
  - vm_compute. reflexivity.
  - intros q g _ G Nq. simpl in G.
    destruct (path_eqb q ["x"]%string); [discriminate G|].
    destruct (path_eqb q ["x"; "1.txt"]%string);
      [injection G as <-; vm_compute; intros E; discriminate E|].
    destruct (path_eqb q ["y"]%string); [discriminate G|].
    destruct (path_eqb q ["y"; "2.txt"]%string);
      [injection G as <-; vm_compute; intros E; discriminate E|].
    destruct (path_eqb q ["z"]%string); [discriminate G|].
    destruct (path_eqb q ["z"; "3.txt"]%string) eqn:Z; [|discriminate G].
    exfalso. apply Nq, path_eqb_eq, Z.
  - left. reflexivity.
Defined.

(** X3: every group of the returned mapping has at least two members;
    each member is a regular file under the scanned root whose content has
    the fingerprint the group is filed under; and when the listing names
    each path once, no member occurs twice. *)
Theorem returned_groups_sound
        (directory : path) (w : world) (duplicates : dict)
        (h : string) (files : list path) :
  fst (find_duplicates_basic directory w) = Ok duplicates ->
  In (h, files) duplicates ->
  (2 <= List.length files)%nat
  /\ (forall p,
         In p files ->
         is_under directory p = true
         /\ exists f,
             find_node p (entries w) = Some (Regular f)
             /\ hash_whole_file (content f) = h)
  /\ (NoDup (map fst (entries w)) -> NoDup files).
Proof.
  intros R I. destruct (group_in_index _ _ _ _ _ R I) as [L H].
  rewrite Forall_forall in H.
  pose proof (group_members _ _ _ _ _ R I) as M. subst files.
  split; [exact L|]. split.
  - intros p P. apply members_in in P. destruct P as [D E].
    destruct (discovered_inv _ _ _ D) as (U & f & F).
    split; [exact U|]. exists f. split; [exact F|].
    rewrite <- E. symmetry. apply fingerprint_regular; auto.
  - intros N. apply NoDup_filter, discovered_nodup, N.
Qed.

Lemma returned_groups_sound_witness :
  (2 <= List.length [["x"; "1.txt"]; ["y"; "2.txt"]]%string)%nat
  /\ (forall p,
         In p [["x"; "1.txt"]; ["y"; "2.txt"]]%string ->
         is_under [] p = true
         /\ exists f,
             find_node p (entries hello_world) = Some (Regular f)
             /\ hash_whole_file (content f)
                = "5d41402abc4b2a76b9719d911017c592"%string)
  /\ (NoDup (map fst (entries hello_world)) ->
      NoDup [["x"; "1.txt"]; ["y"; "2.txt"]]%string).
Proof.
  apply (returned_groups_sound
           [] hello_world
           [("5d41402abc4b2a76b9719d911017c592",
             [["x"; "1.txt"]; ["y"; "2.txt"]])]%string).
  - vm_compute. reflexivity.
  - left. reflexivity.
Defined.

Lemma attempted_prefix es (paths : list path) :
  exists rest, filter (regular es) paths = attempted es paths ++ rest.
Proof.
  induction paths as [|p paths [rest IH]]; simpl; [exists []; reflexivity|].
  destruct (regular es p); [|exists rest; exact IH].
  destruct (hash_of es p).
  - exists rest. simpl. rewrite IH. reflexivity.
  - exists (filter (regular es) paths). reflexivity.
Qed.

(** X5: whether the run completes or raises, the files it has opened are
    an initial part of the discovered files, in discovery order: only
    regular files under the scanned root are ever opened, never a
    directory, a special file or a path outside the root. *)
Theorem only_discovered_files_opened (directory : path) (w : world) :
  exists files rest,
    opened (snd (find_duplicates_basic directory w))
    = opened w ++ map (fun q => (q, rb)) files
    /\ discovered directory w = files ++ rest
    /\ forall q,
        In q files ->
        is_under directory q = true
        /\ exists f, find_node q (entries w) = Some (Regular f).
Proof.
  destruct (attempted_prefix (entries w) (listing directory w)) as [rest P].
  fold (discovered directory w) in P.
  exists (attempted (entries w) (listing directory w)), rest.
  rewrite find_duplicates_basic_spec. cbn [snd]. unfold logged.
  cbn [opened]. split; [reflexivity|]. split; [exact P|].
  intros q Q. apply discovered_inv. rewrite P. apply in_or_app. auto.
Qed.



(** X8: when the scan raises, the script raises the same error and has
    printed nothing: no part of a report reaches standard output. *)
Theorem failed_scan_prints_nothing (w : world) (e : exn) :
  fst (find_duplicates_basic [] w) = Raise e ->
  fst (main w) = Raise e
  /\ stdout (snd (main w)) = stdout w
  /\ entries (snd (main w)) = entries w.
Proof.
  intros R. rewrite main_spec, R. cbn [fst snd].
  destruct (find_duplicates_basic_world [] w) as [E S]. auto.
Qed.

Lemma failed_scan_prints_nothing_witness :
  fst (main locked_file) = Raise PermissionError
  /\ stdout (snd (main locked_file)) = stdout locked_file
  /\ entries (snd (main locked_file)) = entries locked_file.
Proof.
  apply (failed_scan_prints_nothing locked_file PermissionError).
  vm_compute. reflexivity.
Defined.

(** X10: when the loop completes, the paths held by the buckets of the
    index are the discovered files, each as often as the listing yielded
    it: no file is lost and nothing but discovered files is filed. *)
Theorem index_holds_discovered_files
        (directory : path) (w : world) (hash_dict : dict) :
  fst (build_index directory w) = Ok hash_dict ->
  Permutation (all_paths hash_dict) (discovered directory w).
Proof.
  intros B. destruct (build_index_ok _ _ _ B) as (-> & _ & _).
  apply (index_all_paths (entries w) _ []).
Qed.

Lemma index_holds_discovered_files_witness :
  Permutation
    (all_paths
       [("5d41402abc4b2a76b9719d911017c592",
         [["x"; "1.txt"]; ["y"; "2.txt"]]);
        ("7d793037a0760186574b0282f2f435e7", [["z"; "3.txt"]])]%string)
    (discovered [] hello_world).
Proof.
  apply (index_holds_discovered_files [] hello_world).
  vm_compute. reflexivity.
Defined.

Lemma read_faulty_ok (f : handle) (size j : nat) (e : exn) chunk f' :
  pending_fault f = Some (j, e) ->
  read f size = Ok (chunk, f') ->
  j <> S (reads f)
  /\ chunk = firstn size (rest f)
  /\ f' = Handle (skipn size (rest f)) (S (reads f)) (Some (j, e)).
Proof.
  unfold read. intros ->.
  destruct (Nat.eqb_spec j (S (reads f))) as [|N]; [discriminate|].
  intros E. injection E as E1 E2. auto.
Qed.

Lemma read_faulty_raise (f : handle) (size j : nat) (e e0 : exn) :
  pending_fault f = Some (j, e) ->
  read f size = Raise e0 ->
  j = S (reads f) /\ e0 = e.
Proof.
  unfold read. intros ->.
  destruct (Nat.eqb_spec j (S (reads f))) as [|N]; [|discriminate].
  intros E. injection E as E1. auto.
Qed.

Lemma reach_none (d c : nat) :
  (1 <= d)%nat -> c <> 0%nat -> (d * c <? 0 + c)%nat = false.
Proof. intros D C. apply Nat.ltb_ge. nia. Qed.

Lemma reach_first (c len : nat) :
  c <> 0%nat -> (0 * c <? len + c)%nat = true.
Proof. intros C. apply Nat.ltb_lt. lia. Qed.

Lemma reach_step (d c len : nat) :
  (1 <= d)%nat -> c <> 0%nat -> (0 < len)%nat ->
  ((d - 1) * c <? (len - c) + c)%nat = (d * c <? len + c)%nat.
Proof.
  intros D C L.
  destruct (Nat.ltb_spec ((d - 1) * c) (len - c + c)),
           (Nat.ltb_spec (d * c) (len + c)); try reflexivity; exfalso; nia.
Qed.

Lemma firstn_cons_length {A} (n : nat) (l : list A) x xs :
  firstn n l = x :: xs -> (0 < List.length l)%nat.
Proof.
  destruct l; [rewrite firstn_nil; discriminate|simpl; lia].
Qed.

(** The loop on a file whose read number [j] fails: the error is raised
    when the loop gets as far as that read, and otherwise the digest is
    the one of the bytes left. *)
Lemma read_loop_faulty (f : handle) (hasher : MD5.hasher)
      (j : nat) (e : exn) :
  pending_fault f = Some (j, e) ->
  (reads f < j)%nat ->
  read_loop f hasher
  = if ((j - S (reads f)) * chunk_size
        <? List.length (rest f) + chunk_size)%nat
    then Raise e
    else Ok (MD5.update hasher (rest f)).
Proof.
  funelim (read_loop f hasher); intros F L.
  - match goal with E : read _ _ = Ok ([], _) |- _ =>
      destruct (read_faulty_ok _ _ _ _ _ _ F E) as (N & E1 & _) end.
    symmetry in E1. apply firstn_nil_inv in E1; [|exact chunk_size_pos].
    rewrite E1. cbn [List.length].
    rewrite reach_none; [reflexivity|lia|exact chunk_size_pos].
  - match goal with E : read _ _ = Ok (_ :: _, _) |- _ =>
      destruct (read_faulty_ok _ _ _ _ _ _ F E) as (N & E1 & E2) end.
    subst f'.
    match goal with IH : context [read_loop _ _ = _] |- _ =>
      rewrite (IH j e); [|reflexivity|cbn [reads]; lia] end.
    cbn [rest reads]. rewrite length_skipn.
    symmetry in E1. pose proof (firstn_cons_length _ _ _ _ E1) as P.
    replace (j - S (S (reads f)))%nat with (j - S (reads f) - 1)%nat by lia.
    rewrite reach_step; [|lia|exact chunk_size_pos|exact P].
    rewrite <- E1, update_app, firstn_skipn. reflexivity.
  - match goal with E : read _ _ = Raise _ |- _ =>
      destruct (read_faulty_raise _ _ _ _ _ F E) as (-> & ->) end.
    rewrite Nat.sub_diag, reach_first; [reflexivity|exact chunk_size_pos].
Qed.

(** X7: on a file whose read number [k + 1] fails, [get_file_hash] raises
    that error exactly when the loop gets that far, that is when the file
    has more than [(k - 1) * 8192] bytes or [k] is 0; a shorter file is
    digested as if it had no fault.  No partial digest is ever returned. *)
Theorem read_error_reached_or_not
        (w : world) (p : path) (f : file) (k : nat) (e : exn) :
  find_node p (entries w) = Some (Regular f) ->
  fault f = Some (S k, e) ->
  fst (get_file_hash p w)
  = if (k * chunk_size <? List.length (content f) + chunk_size)%nat
    then Raise e
    else Ok (hash_whole_file (content f)).
Proof.
  intros F Q. rewrite get_file_hash_spec. cbn [fst].
  unfold hash_of, get_file_hash, bind, open_, lift, ret. cbn [entries fst].
  rewrite F, Q.
  rewrite (read_loop_faulty _ _ (S k) e);
    [|reflexivity|cbn [reads]; lia].
  cbn [reads rest]. replace (S k - 1)%nat with k by lia.
  destruct (k * chunk_size <? List.length (content f) + chunk_size)%nat;
    reflexivity.
Qed.

Lemma read_error_reached_or_not_witness :
  fst (get_file_hash ["late"]%string failing_reads)
  = if (4 * chunk_size
        <? List.length (bytes_of_string "hello") + chunk_size)%nat
    then Raise OSError
    else Ok (hash_whole_file (bytes_of_string "hello")).
Proof.
  apply (read_error_reached_or_not
           failing_reads ["late"]%string
           (File (bytes_of_string "hello") (Some (5%nat, OSError)))
           4 OSError); reflexivity.
Defined.

(** X9: [hash_dict[k].append(v)] on the dictionary: afterwards the bucket
    of [k] is the old bucket, empty if there was none, with [v] added at
    the end; every other fingerprint keeps its bucket; and the
    fingerprints keep their order, a new one going last. *)
Theorem append_then_lookup (d : dict) (k : string) (v : path) :
  dict_get (dict_append d k v) k
  = Some (match dict_get d k with
          | Some vs => vs ++ [v]
          | None => [v]
          end)
  /\ (forall k', k' <> k -> dict_get (dict_append d k v) k' = dict_get d k')
  /\ keys (dict_append d k v)
     = if in_dec string_dec k (keys d) then keys d else keys d ++ [k].
Proof.
  split; [|split].
  - rewrite dict_get_append, String.eqb_refl. reflexivity.
  - intros k' N. rewrite dict_get_append.
    destruct (String.eqb_spec k' k); [contradiction|reflexivity].
  - apply keys_append.
Qed.

Section FirstSeen.

Variable es : list (path * node).

Lemma fresh_in (ks : list string) (h : string) :
  fresh ks h = true <-> ~ In h ks.
Proof.
  unfold fresh. rewrite negb_true_iff, <- not_true_iff_false, existsb_exists.
  split; intros N I; apply N.
  - exists h. split; [exact I|apply String.eqb_refl].
  - destruct I as (x & I & E). apply String.eqb_eq in E. congruence.
Qed.

Lemma filter_twice {A} (f g : A -> bool) (l : list A) :
  filter f (filter g l) = filter (fun x => g x && f x) l.
Proof.
  induction l as [|x l IH]; simpl; [reflexivity|].
  destruct (g x); simpl; [destruct (f x)|]; rewrite ?IH; reflexivity.
Qed.

Lemma filter_of_map {A B} (f : B -> bool) (g : A -> B) (l : list A) :
  filter f (map g l) = map g (filter (fun x => f (g x)) l).
Proof.
  induction l as [|x l IH]; simpl; [reflexivity|].
  destruct (f (g x)); simpl; rewrite IH; reflexivity.
Qed.

Lemma members_cons (h : string) (p : path) (ps : list path) :
  members es h (p :: ps)
  = if String.eqb h (fingerprint es p) then p :: members es h ps else members es h ps.
Proof. reflexivity. Qed.

Lemma dict_append_new (d : dict) (k : string) (v : path) :
  ~ In k (keys d) -> dict_append d k v = d ++ [(k, [v])].
Proof.
  unfold keys. induction d as [|[k0 vs] d IH]; simpl; intros N;
    [reflexivity|].
  destruct (String.eqb_spec k k0) as [->|_]; [tauto|].
  rewrite IH by tauto. reflexivity.
Qed.

Lemma dict_append_old (d : dict) (k : string) (v : path) :
  NoDup (keys d) -> In k (keys d) ->
  dict_append d k v
  = map (fun item =>
           if String.eqb k (fst item)
           then (fst item, snd item ++ [v]) else item) d.
Proof.
  unfold keys. induction d as [|[k0 vs] d IH]; simpl; intros N I; [tauto|].
  inversion N as [|? ? N1 N2]; subst.
  destruct (String.eqb_spec k k0) as [->|D].
  - f_equal. symmetry. rewrite <- (map_id d) at 2. apply map_ext_in.
    intros [k1 vs1] I1. simpl.
    destruct (String.eqb_spec k0 k1) as [->|_]; [|reflexivity].
    exfalso. apply N1. change k1 with (fst (k1, vs1)). apply in_map, I1.
  - f_equal. apply IH; [exact N2|]. destruct I; [congruence|assumption].
Qed.

(** The index after the loop: the buckets already there, each extended,
    then a bucket for each new fingerprint in the order in which the
    fingerprints are first seen. *)
Lemma index_first_seen (paths : list path) :
  forall d,
    NoDup (keys d) ->
    fold_left (add es) paths d
    = map (fun item => (fst item, snd item ++ members es (fst item) paths)) d
      ++ map (fun h => (h, members es h paths))
             (filter (fresh (keys d)) (first_seen (map (fingerprint es) paths))).
Proof.
  induction paths as [|p paths IH]; intros d N.
  - simpl. rewrite app_nil_r. rewrite <- (map_id d) at 1.
    apply map_ext. intros [k vs]. simpl. rewrite app_nil_r. reflexivity.
  - cbn [fold_left map first_seen]. unfold add at 2. fold (fingerprint es p).
    rewrite IH by (apply keys_append_nodup, N).
    destruct (in_dec string_dec (fingerprint es p) (keys d)) as [I|I].
    + pose proof (keys_append d (fingerprint es p) p) as K.
      destruct (in_dec string_dec (fingerprint es p) (keys d)); [|contradiction].
      rewrite K, (dict_append_old _ _ _ N I), map_map. f_equal.
      * apply map_ext. intros [k vs]. cbn [fst snd].
        rewrite members_cons. rewrite (String.eqb_sym k (fingerprint es p)).
        destruct (String.eqb (fingerprint es p) k); cbn [fst snd];
          [rewrite <- app_assoc|]; reflexivity.
      * cbn [filter].
        destruct (fresh (keys d) (fingerprint es p)) eqn:Fr;
          [apply fresh_in in Fr; contradiction|].
        rewrite filter_twice.
        erewrite (filter_ext_in
                    (fun x => negb (String.eqb x (fingerprint es p)) && fresh (keys d) x)
                    (fresh (keys d))).
        -- apply map_ext_in. intros h Ih. apply filter_In in Ih.
           destruct Ih as [_ Fh]. rewrite members_cons.
           destruct (String.eqb_spec h (fingerprint es p)) as [->|_]; [|reflexivity].
           apply fresh_in in Fh. contradiction.
        -- intros h _. destruct (String.eqb_spec h (fingerprint es p)) as [->|_];
             [|reflexivity].
           simpl. symmetry. apply not_true_iff_false.
           intros Fh. apply fresh_in in Fh. contradiction.
    + pose proof (keys_append d (fingerprint es p) p) as K.
      destruct (in_dec string_dec (fingerprint es p) (keys d)); [contradiction|].
      rewrite K, (dict_append_new _ _ _ I), map_app. cbn [map fst snd app].
      rewrite <- app_assoc. cbn [app filter].
      assert (Fr : fresh (keys d) (fingerprint es p) = true) by (apply fresh_in, I).
      rewrite Fr. cbn [map]. rewrite members_cons, String.eqb_refl.
      f_equal; [|f_equal].
      * apply map_ext_in. intros [k vs] Ik. cbn [fst snd].
        rewrite members_cons.
        destruct (String.eqb_spec k (fingerprint es p)) as [E|_]; [|reflexivity].
        exfalso. apply I. rewrite <- E. change k with (fst (k, vs)).
        apply in_map, Ik.
      * rewrite filter_twice.
        erewrite (filter_ext_in
                    (fun x => negb (String.eqb x (fingerprint es p)) && fresh (keys d) x)
                    (fresh (keys d ++ [fingerprint es p]))).
        -- apply map_ext_in. intros h Ih. apply filter_In in Ih.
           destruct Ih as [_ Fh]. rewrite members_cons.
           destruct (String.eqb_spec h (fingerprint es p)) as [->|_]; [|reflexivity].
           apply fresh_in in Fh. exfalso. apply Fh.
           apply in_or_app. right. left. reflexivity.
        -- intros h _. unfold fresh. rewrite existsb_app. simpl.
           rewrite orb_false_r, negb_orb. apply andb_comm.
Qed.

Lemma filter_fresh_nil (l : list string) : filter (fresh []) l = l.
Proof.
  induction l as [|x l IH]; simpl; [reflexivity|]. rewrite IH. reflexivity.
Qed.

Lemma index_in_first_seen_order (paths : list path) :
  fold_left (add es) paths []
  = map (fun h => (h, members es h paths)) (first_seen (map (fingerprint es) paths)).
Proof.
  rewrite index_first_seen by constructor. simpl.
  rewrite filter_fresh_nil. reflexivity.
Qed.

End FirstSeen.

(** X4: the returned mapping is determined by the discovered files and
    their fingerprints alone: its groups come in the order in which their
    fingerprints are first seen in the listing, one group for each
    fingerprint that two or more discovered files have, holding those
    files in discovery order. *)
Theorem groups_in_first_seen_order
        (directory : path) (w : world) (duplicates : dict) :
  fst (find_duplicates_basic directory w) = Ok duplicates ->
  duplicates
  = map (fun h => (h, members (entries w) h (discovered directory w)))
        (filter
           (fun h =>
              (1 <? List.length
                      (members (entries w) h (discovered directory w)))%nat)
           (first_seen
              (map (fingerprint (entries w)) (discovered directory w)))).
Proof.
  intros R. destruct (find_duplicates_basic_ok _ _ _ R) as (d & B & ->).
  destruct (build_index_ok _ _ _ B) as (-> & _ & _).
  rewrite index_in_first_seen_order, filter_of_map. reflexivity.
Qed.

Lemma groups_in_first_seen_order_witness :
  [("5d41402abc4b2a76b9719d911017c592",
    [["x"; "1.txt"]; ["y"; "2.txt"]])]%string
  = map (fun h =>
           (h, members (entries hello_world) h (discovered [] hello_world)))
        (filter
           (fun h =>
              (1 <? List.length
                      (members (entries hello_world) h
                               (discovered [] hello_world)))%nat)
           (first_seen
              (map (fingerprint (entries hello_world))
                   (discovered [] hello_world)))).
Proof.
  apply (groups_in_first_seen_order [] hello_world).
  vm_compute. reflexivity.
Defined.
